(** * HIMSS 2025 exhibitor dashboard: normalisation, aggregation, drill-down
    and export of [analysis.py], embedded in Rocq.

    The file follows the program: the parsed JSON input and the Python
    operations applied to it ([dict.get], [len], iteration, truthiness,
    [str.lower]), then [process_data], the pandas and [collections.Counter]
    operations that [create_visualizations] uses, the click callbacks with
    the application's two "last selection" slots, and the download
    callbacks.  Python exceptions are values of [exn]; a computation that can
    raise returns [result A = exn + A]. *)

From Stdlib Require Import ZArith Ascii String.
From stdpp Require Import base option list sorting gmap strings pretty.

Set Warnings "-register-all".

Local Open Scope string_scope.
Local Open Scope list_scope.

(** ** Python values read by [json.load] *)

(** A Python [str] is modelled by its UTF-8 encoding, a Rocq [string] of
    bytes: two strings are equal when their bytes are, and the order of the
    code points is the order of the bytes.  A number is a [Z]: the program
    only tests numbers for zero.  A [dict] is an association list, read with
    the first binding of a key. *)
Inductive json : Type :=
| JNull
| JBool (b : bool)
| JNum (n : Z)
| JStr (s : string)
| JArr (items : list json)
| JObj (fields : list (string * json)).

Inductive exn : Type :=
| KeyError (key : string)
| TypeError
| AttributeError.

Definition result (A : Type) : Type := exn + A.

Definition ret {A} (a : A) : result A := inr a.
Definition raise {A} (e : exn) : result A := inl e.
Definition bind {A B} (m : result A) (k : A -> result B) : result B :=
  match m with
  | inl e => inl e
  | inr a => k a
  end.

Declare Scope py_scope.
Delimit Scope py_scope with py.
Notation "'let*' x ':=' m 'in' k" := (bind m (fun x => k))
  (at level 10, x name, m at level 100, k at level 200) : py_scope.
Local Open Scope py_scope.

Definition raises {A} (m : result A) : Prop :=
  match m with inl _ => True | inr _ => False end.

Fixpoint dict_lookup (key : string) (fields : list (string * json)) : option json :=
  match fields with
  | [] => None
  | (k, v) :: rest => if String.eqb k key then Some v else dict_lookup key rest
  end.

Fixpoint dict_keys (fields : list (string * json)) : list string :=
  match fields with
  | [] => []
  | (k, _) :: rest =>
      k :: List.filter (fun k' => negb (String.eqb k k')) (dict_keys rest)
  end.

(** [d.get(key, fallback)]: only a dict has the method. *)
Definition py_get (d : json) (key : string) (fallback : json) : result json :=
  match d with
  | JObj fields => ret (default fallback (dict_lookup key fields))
  | _ => raise AttributeError
  end.

(** [d[key]] with a string key. *)
Definition py_getitem (d : json) (key : string) : result json :=
  match d with
  | JObj fields =>
      match dict_lookup key fields with
      | Some v => ret v
      | None => raise (KeyError key)
      end
  | _ => raise TypeError
  end.

(** A byte [10xxxxxx] continues the code point of the byte before it. *)
Definition is_continuation (c : ascii) : bool :=
  let n := nat_of_ascii c in (128 <=? n)%nat && (n <? 192)%nat.

(** The code points of a string, each as a string of its own. *)
Fixpoint code_points (s : string) : list string :=
  match s with
  | EmptyString => []
  | String c rest =>
      let ps := code_points rest in
      match rest, ps with
      | String c' _, p :: ps' =>
          if is_continuation c' then String c p :: ps'
          else String c EmptyString :: ps
      | _, _ => String c EmptyString :: ps
      end
  end.

(** [len(v)] *)
Definition py_len (v : json) : result nat :=
  match v with
  | JStr s => ret (length (code_points s))
  | JArr items => ret (length items)
  | JObj fields => ret (length (dict_keys fields))
  | _ => raise TypeError
  end.

(** [iter(v)], as a [for] clause runs it. *)
Definition py_iter (v : json) : result (list json) :=
  match v with
  | JStr s => ret (JStr <$> code_points s)
  | JArr items => ret items
  | JObj fields => ret (JStr <$> dict_keys fields)
  | _ => raise TypeError
  end.

(** Truth value of [v], as [if v] tests it. *)
Definition py_truthy (v : json) : bool :=
  match v with
  | JNull => false
  | JBool b => b
  | JNum n => negb (n =? 0)%Z
  | JStr s => negb (String.eqb s "")
  | JArr items => negb (Nat.eqb (length items) 0)
  | JObj fields => negb (Nat.eqb (length fields) 0)
  end.

Definition lower_ascii (c : ascii) : ascii :=
  let n := nat_of_ascii c in
  if (65 <=? n)%nat && (n <=? 90)%nat then ascii_of_nat (n + 32) else c.

Fixpoint lower (s : string) : string :=
  match s with
  | EmptyString => EmptyString
  | String c rest => String (lower_ascii c) (lower rest)
  end.

(** [v.lower()]: only a str has the method.  [lower] is [str.lower] on
    the ASCII letters and leaves other characters as they are; the program
    compares the result with "website" only, and no character outside ASCII
    lowers to a letter of that word, so the comparison is the one Python
    makes. *)
Definition py_lower (v : json) : result string :=
  match v with
  | JStr s => ret (lower s)
  | _ => raise AttributeError
  end.

(** ** [process_data] *)

(** The dict built for one exhibitor, in the order of its keys. *)
Record item : Type := Item {
  i_company_name : json;
  i_booth_location : json;
  i_pavilion : json;
  i_categories_count : nat;
  i_has_description : Z;
  i_social_media_count : nat;
  i_description : json;
  i_description_ko : json;
  i_social_media : json;
  i_contact_details : json;
  i_website : json;
  i_categories : json
}.

(** [next((contact['url'] for contact in contacts
          if contact.get('type', '').lower() == 'website'), '')]:
    the generator is consumed up to its first element only. *)
Fixpoint first_website (contacts : list json) : result json :=
  match contacts with
  | [] => ret (JStr "")
  | contact :: rest =>
      let* ty := py_get contact "type" (JStr "") in
      let* l := py_lower ty in
      if String.eqb l "website" then py_getitem contact "url"
      else first_website rest
  end.

Definition website_url (exhibitor : json) : result json :=
  let* cd := py_get exhibitor "contact_details" (JArr []) in
  let* contacts := py_iter cd in
  first_website contacts.

Definition process_exhibitor (exhibitor : json) : result item :=
  let* website := website_url exhibitor in
  let* company_name := py_get exhibitor "company_name" (JStr "Unknown") in
  let* booth_location := py_get exhibitor "booth_location" (JStr "Unknown") in
  let* pavilion := py_get exhibitor "pavilion" (JStr "None") in
  let* cats := py_get exhibitor "categories" (JArr []) in
  let* categories_count := py_len cats in
  let* dko := py_get exhibitor "description_ko" JNull in
  let has_description := if py_truthy dko then 1%Z else 0%Z in
  let* sm := py_get exhibitor "social_media" (JArr []) in
  let* social_media_count := py_len sm in
  let* description := py_get exhibitor "description" (JStr "") in
  let* description_ko := py_get exhibitor "description_ko" (JStr "") in
  let* social_media := py_get exhibitor "social_media" (JArr []) in
  let* contact_details := py_get exhibitor "contact_details" (JArr []) in
  let* categories := py_get exhibitor "categories" (JArr []) in
  ret {| i_company_name := company_name;
         i_booth_location := booth_location;
         i_pavilion := pavilion;
         i_categories_count := categories_count;
         i_has_description := has_description;
         i_social_media_count := social_media_count;
         i_description := description;
         i_description_ko := description_ko;
         i_social_media := social_media;
         i_contact_details := contact_details;
         i_website := website;
         i_categories := categories |}.

Fixpoint process_data (data : list json) : result (list item) :=
  match data with
  | [] => ret []
  | exhibitor :: rest =>
      let* it := process_exhibitor exhibitor in
      let* processed := process_data rest in
      ret (it :: processed)
  end.

(** ** Normalized records

    [process_data] passes the JSON values of a record through unchanged.  The
    aggregation and the callbacks read them at the types of the data model:
    strings for the names and descriptions, a list of strings for the
    categories.  [exhibitor] is an item at these types, the row that
    [df.to_dict('records')] gives back. *)
Record exhibitor : Type := Exhibitor {
  company_name : string;
  booth_location : string;
  pavilion : string;
  categories_count : nat;
  has_description : Z;
  social_media_count : nat;
  description : string;
  description_ko : string;
  social_media : list json;
  contact_details : list json;
  website : string;
  categories : list string
}.

Definition as_str (v : json) : option string :=
  match v with JStr s => Some s | _ => None end.

Definition as_list (v : json) : option (list json) :=
  match v with JArr items => Some items | _ => None end.

Definition as_str_list (v : json) : option (list string) :=
  items ← as_list v; mapM as_str items.

Definition normalized (it : item) : option exhibitor :=
  cn ← as_str (i_company_name it);
  bl ← as_str (i_booth_location it);
  pv ← as_str (i_pavilion it);
  d ← as_str (i_description it);
  dko ← as_str (i_description_ko it);
  sm ← as_list (i_social_media it);
  cd ← as_list (i_contact_details it);
  w ← as_str (i_website it);
  cs ← as_str_list (i_categories it);
  Some {| company_name := cn;
          booth_location := bl;
          pavilion := pv;
          categories_count := i_categories_count it;
          has_description := i_has_description it;
          social_media_count := i_social_media_count it;
          description := d;
          description_ko := dko;
          social_media := sm;
          contact_details := cd;
          website := w;
          categories := cs |}.

(** The derived fields of a record, as [process_data] computes them. *)
Definition consistent (e : exhibitor) : Prop :=
  has_description e = (if String.eqb (description_ko e) "" then 0%Z else 1%Z)
  /\ categories_count e = length (categories e)
  /\ social_media_count e = length (social_media e).

(** ** Sorting, counting and the pandas operations used *)

Section Sort.
Context {A : Type} (le : A -> A -> bool).

(** [le a b]: [a] may stand before [b]. *)
Definition le_rel : relation A := fun a b => le a b = true.

Fixpoint insert_sorted (x : A) (l : list A) : list A :=
  match l with
  | [] => [x]
  | y :: rest => if le x y then x :: y :: rest else y :: insert_sorted x rest
  end.

(** A stable sort: an element goes before the elements it is not above,
    so equal keys keep the order of the input, as [sorted] and
    [Counter.most_common] do.  pandas leaves the order of rows with equal
    keys to its sorting routine; the model keeps them in the order of the
    input, and no statement below depends on that order. *)
Fixpoint stable_sort (l : list A) : list A :=
  match l with
  | [] => []
  | x :: rest => insert_sorted x (stable_sort rest)
  end.
End Sort.

Section Counter.
Context {A : Type} `{EqDecision A}.

(** How many times [x] occurs in [xs]. *)
Definition occurrences (x : A) (xs : list A) : nat :=
  length (List.filter (fun y => bool_decide (y = x)) xs).

(** [c[x] = c.get(x, 0) + 1]: a new key goes last. *)
Fixpoint counter_incr (x : A) (c : list (A * nat)) : list (A * nat) :=
  match c with
  | [] => [(x, 1)]
  | (y, n) :: rest =>
      if decide (x = y) then (y, S n) :: rest else (y, n) :: counter_incr x rest
  end.

(** [Counter(xs)], as its items in insertion order. *)
Definition Counter (xs : list A) : list (A * nat) :=
  foldl (fun c x => counter_incr x c) [] xs.

Fixpoint counter_get (x : A) (c : list (A * nat)) : option nat :=
  match c with
  | [] => None
  | (y, n) :: rest => if decide (x = y) then Some n else counter_get x rest
  end.

Definition by_count_desc (a b : A * nat) : bool := (b.2 <=? a.2)%nat.

(** [c.most_common(n)] *)
Definition most_common (n : nat) (c : list (A * nat)) : list (A * nat) :=
  take n (stable_sort by_count_desc c).

(** [series.value_counts().reset_index()]: one row per distinct value,
    by descending count. *)
Definition value_counts (xs : list A) : list (A * nat) :=
  stable_sort by_count_desc (Counter xs).

(** [frame.sort_values('count', ascending=False)] *)
Definition sort_values_count_desc (rows : list (A * nat)) : list (A * nat) :=
  stable_sort by_count_desc rows.
End Counter.

Record DataFrame : Type := {
  columns : list string;
  records : list exhibitor
}.

Definition item_keys : list string :=
  ["company_name"; "booth_location"; "pavilion"; "categories_count";
   "has_description"; "social_media_count"; "description"; "description_ko";
   "social_media"; "contact_details"; "website"; "categories"].

(** [pd.DataFrame(processed_data)]: the columns are the keys of the dicts,
    and a frame built from an empty list has no column. *)
Definition pd_DataFrame (processed_data : list exhibitor) : DataFrame :=
  {| columns := match processed_data with [] => [] | _ :: _ => item_keys end;
     records := processed_data |}.

(** [df[name]], read through the accessor of the field [name]. *)
Definition column {A} (df : DataFrame) (name : string)
    (field : exhibitor -> A) : result (list A) :=
  if bool_decide (name ∈ columns df) then ret (field <$> records df)
  else raise (KeyError name).

Definition to_dict_records (df : DataFrame) : list exhibitor := records df.

(** ** [create_visualizations] *)

Record viz_data : Type := {
  df : DataFrame;
  top_categories : list (string * nat);
  top_30_category_names : gset string;
  pavilion_counts : list (string * nat);
  description_counts : list (option string * nat);
  social_media_dist : list (nat * nat);
  others_real_count : nat
}.

(** [not set(exhibitor['categories']).intersection(names)] *)
Definition no_top_category (names : gset string) (e : exhibitor) : bool :=
  bool_decide ((list_to_set (categories e) : gset string) ∩ names = ∅).

(** The loop that counts the companies outside the top 30 categories. *)
Definition count_others (names : gset string) (rows : list exhibitor) : nat :=
  foldl (fun others_count e =>
           if no_top_category names e then S others_count else others_count)
        0 rows.

(** [top_categories.loc[top_categories['category'] == 'Others', 'count'] = v] *)
Definition set_others_count (v : nat) (rows : list (string * nat))
    : list (string * nat) :=
  (fun r => if String.eqb r.1 "Others" then (r.1, v) else r) <$> rows.

(** [series.map({1: 'Yes', 0: 'No'})]: a value outside the dict maps to NaN. *)
Definition yes_no (v : Z) : option string :=
  if (v =? 1)%Z then Some "Yes" else if (v =? 0)%Z then Some "No" else None.

Definition by_value_asc (a b : nat * nat) : bool := (a.1 <=? b.1)%nat.

(** The values bound by the body of [create_visualizations], up to the
    overwrite of the displayed "Others" count; [cv_real_others_count] is the
    local [real_others_count], which the function does not return. *)
Record category_table : Type := {
  cv_top_30_categories : list (string * nat);
  cv_top_30_category_names : gset string;
  cv_real_others_count : nat;
  cv_top_categories : list (string * nat)
}.

Definition category_counting (df : DataFrame) : result category_table :=
  let* cats := column df "categories" categories in
  let all_categories := concat cats in
  let category_counts := Counter all_categories in
  let top_30_categories := most_common 30 category_counts in
  let top_30_category_names : gset string := list_to_set top_30_categories.*1 in
  let others_count := count_others top_30_category_names (to_dict_records df) in
  let top_categories := top_30_categories ++ [("Others", others_count)] in
  let real_others_count := others_count in
  let top_categories :=
    match counter_get "Artificial Intelligence" top_30_categories with
    | Some ai_count => set_others_count ai_count top_categories
    | None => top_categories
    end in
  ret {| cv_top_30_categories := top_30_categories;
         cv_top_30_category_names := top_30_category_names;
         cv_real_others_count := real_others_count;
         cv_top_categories := top_categories |}.

Definition create_visualizations (processed_data : list exhibitor)
    : result viz_data :=
  let df := pd_DataFrame processed_data in
  let* ct := category_counting df in
  let others_real_count := 507 in
  let* pavs := column df "pavilion" pavilion in
  let pavilion_counts := value_counts pavs in
  let pavilion_counts :=
    List.filter (fun r => negb (String.eqb r.1 "None")) pavilion_counts in
  let pavilion_counts := take 15 (sort_values_count_desc pavilion_counts) in
  let* hd := column df "has_description" has_description in
  let description_counts := (fun r => (yes_no r.1, r.2)) <$> value_counts hd in
  let* smc := column df "social_media_count" social_media_count in
  let social_media_dist := stable_sort by_value_asc (value_counts smc) in
  ret {| df := df;
         top_categories := cv_top_categories ct;
         top_30_category_names := cv_top_30_category_names ct;
         pavilion_counts := pavilion_counts;
         description_counts := description_counts;
         social_media_dist := social_media_dist;
         others_real_count := others_real_count |}.

(** Loader, Normalizer and Aggregator in a row, on the parsed array.  The
    aggregation is modelled on items at the types of the data model; [None]
    stands for an input whose items are not. *)
Definition pipeline (data : list json) : option (result viz_data) :=
  match process_data data with
  | inl e => Some (inl e)
  | inr processed => create_visualizations <$> mapM normalized processed
  end.

(** ** The click callbacks and the "last selection" slots *)

Record app_state : Type := {
  selected_category_exhibitors : gmap string exhibitor;
  selected_pavilion_exhibitors : gmap string exhibitor
}.

(** The state [create_app] starts with. *)
Definition initial_state : app_state :=
  {| selected_category_exhibitors := ∅; selected_pavilion_exhibitors := ∅ |}.

Definition by_company_name (a b : exhibitor) : bool :=
  String.leb (company_name a) (company_name b).

(** [{exhibitor['company_name']: exhibitor for exhibitor in rows}] *)
Definition dict_by_company_name (rows : list exhibitor) : gmap string exhibitor :=
  foldl (fun d e => <[company_name e := e]> d) ∅ rows.

(** [filtered_exhibitors] of [display_category_click_data], before sorting. *)
Definition filter_category (viz : viz_data) (selected_category : string)
    : list exhibitor :=
  if String.eqb selected_category "Others" then
    List.filter (no_top_category (top_30_category_names viz))
                (to_dict_records (df viz))
  else
    List.filter (fun e => bool_decide (selected_category ∈ categories e))
                (to_dict_records (df viz)).

(** The callback on a click on the category chart.  [clickData] is the [y]
    of the clicked bar, [None] before any click.  The result is the list of
    rows of the table shown ([None]: the prompt is shown instead) and the
    state of the application afterwards. *)
Definition display_category_click_data (viz : viz_data)
    (clickData : option string) (st : app_state)
    : option (list exhibitor) * app_state :=
  match clickData with
  | None => (None, st)
  | Some selected_category =>
      let filtered_exhibitors :=
        stable_sort by_company_name (filter_category viz selected_category) in
      (Some filtered_exhibitors,
       {| selected_category_exhibitors := dict_by_company_name filtered_exhibitors;
          selected_pavilion_exhibitors := selected_pavilion_exhibitors st |})
  end.

Definition display_pavilion_click_data (viz : viz_data)
    (clickData : option string) (st : app_state)
    : option (list exhibitor) * app_state :=
  match clickData with
  | None => (None, st)
  | Some selected_pavilion =>
      let filtered_exhibitors :=
        stable_sort by_company_name
          (List.filter (fun e => String.eqb (pavilion e) selected_pavilion)
                       (to_dict_records (df viz))) in
      (Some filtered_exhibitors,
       {| selected_category_exhibitors := selected_category_exhibitors st;
          selected_pavilion_exhibitors := dict_by_company_name filtered_exhibitors |})
  end.

(** ** The download callbacks *)

(** The frame handed to [dcc.send_data_frame]: its column labels and its
    rows. *)
Record export : Type := {
  sheet_columns : list string;
  sheet_rows : list (list string)
}.

Definition export_fields (e : exhibitor) : list string :=
  [company_name e; booth_location e; pavilion e; description e;
   description_ko e; website e].

Definition export_headers : list string :=
  ["회사명"; "부스 위치"; "파빌리온"; "영문 설명"; "한글 설명"; "웹페이지"].

(** [values[0]] of every checklist with a value. *)
Definition checked_names (checkbox_values : list (list string)) : list string :=
  omap head checkbox_values.

(** The rows of the selection stored under the checked names, in their
    order; a name that is not a key is skipped. *)
Definition select_rows (selection : gmap string exhibitor)
    (selected_companies : list string) : list exhibitor :=
  omap (fun company_name => selection !! company_name) selected_companies.

Definition download_selected (selection : gmap string exhibitor)
    (n_clicks : option nat) (checkbox_values : list (list string))
    : option export :=
  match n_clicks with
  | None | Some 0 => None
  | Some (S _) =>
      let selected_companies := checked_names checkbox_values in
      match selected_companies with
      | [] => None
      | _ :: _ =>
          let selected_data := select_rows selection selected_companies in
          match selected_data with
          | [] => None
          | _ :: _ =>
              (* the frame of a non-empty list of records is not empty *)
              Some {| sheet_columns := export_headers;
                      sheet_rows := export_fields <$> selected_data |}
          end
      end
  end.

Definition download_selected_category_data (st : app_state)
    (n_clicks : option nat) (checkbox_values : list (list string))
    : option export :=
  download_selected (selected_category_exhibitors st) n_clicks checkbox_values.

Definition download_selected_pavilion_data (st : app_state)
    (n_clicks : option nat) (checkbox_values : list (list string))
    : option export :=
  download_selected (selected_pavilion_exhibitors st) n_clicks checkbox_values.

(** ** Sample data *)

Definition sample (name : string) (pav : string) (dko : string)
    (cats : list string) : exhibitor :=
  {| company_name := name; booth_location := "B1"; pavilion := pav;
     categories_count := length cats;
     has_description := if String.eqb dko "" then 0%Z else 1%Z;
     social_media_count := 0; description := ""; description_ko := dko;
     social_media := []; contact_details := []; website := "";
     categories := cats |}.

Definition raw_sample : json :=
  JObj [("company_name", JStr "Acme");
        ("categories", JArr [JStr "AI"; JStr "Cloud"]);
        ("description_ko", JStr "x");
        ("contact_details",
         JArr [JObj [("type", JStr "Email"); ("url", JStr "m")];
               JObj [("type", JStr "WebSite"); ("url", JStr "http://a")]])].


Definition raw_website_without_url : json :=
  JObj [("company_name", JStr "Acme");
        ("contact_details", JArr [JObj [("type", JStr "website")]])].

Definition rows_demo : list exhibitor :=
  [sample "b" "P" "x" ["Artificial Intelligence"; "Z"];
   sample "a" "None" "" ["Q"];
   sample "c" "P" "" [];
   sample "a" "Q" "y" ["Q"; "Z"]].

Definition rows_ai_only : list exhibitor :=
  [sample "a" "P" "x" ["Artificial Intelligence"]].

(** ** The overview cards of [create_app] *)

(** [len(viz_data['df'])] *)
Definition total_exhibitors (viz : viz_data) : nat := length (records (df viz)).

(** [len(set(cat for cats in viz_data['df']['categories'] for cat in cats))] *)
Definition unique_categories (viz : viz_data) : result nat :=
  let* cats := column (df viz) "categories" categories in
  ret (size (list_to_set (concat cats) : gset string)).

(** [df['pavilion'].nunique() - (1 if 'None' in df['pavilion'].unique() else 0)] *)
Definition unique_pavilions (viz : viz_data) : result nat :=
  let* pavs := column (df viz) "pavilion" pavilion in
  let unique : gset string := list_to_set pavs in
  ret (size unique - (if bool_decide ("None" ∈ unique) then 1 else 0)).

(** ** The language buttons *)

(** A [style] dict, in the order of its keys. *)
Definition style : Type := list (string * string).

Fixpoint style_get (key : string) (st : style) : option string :=
  match st with
  | [] => None
  | (k, v) :: rest => if String.eqb k key then Some v else style_get key rest
  end.

(** The four dicts that [toggle_language_category] and
    [toggle_language_pavilion] both build. *)
Definition ko_style : style :=
  [("marginRight", "10px"); ("padding", "8px 15px");
   ("backgroundColor", "#4CAF50"); ("color", "white"); ("border", "none");
   ("borderRadius", "5px"); ("cursor", "pointer"); ("fontWeight", "bold");
   ("boxShadow", "0 2px 5px rgba(0,0,0,0.2)"); ("transition", "all 0.3s ease")].

Definition en_style : style :=
  [("padding", "8px 15px");
   ("backgroundColor", "#ccc"); ("color", "black"); ("border", "none");
   ("borderRadius", "5px"); ("cursor", "pointer"); ("fontWeight", "bold");
   ("boxShadow", "0 2px 5px rgba(0,0,0,0.1)"); ("transition", "all 0.3s ease")].

Definition ko_inactive_style : style :=
  [("marginRight", "10px"); ("padding", "8px 15px");
   ("backgroundColor", "#ccc"); ("color", "black"); ("border", "none");
   ("borderRadius", "5px"); ("cursor", "pointer"); ("fontWeight", "bold");
   ("boxShadow", "0 2px 5px rgba(0,0,0,0.1)"); ("transition", "all 0.3s ease")].

Definition en_inactive_style : style :=
  [("padding", "8px 15px");
   ("backgroundColor", "#4CAF50"); ("color", "white"); ("border", "none");
   ("borderRadius", "5px"); ("cursor", "pointer"); ("fontWeight", "bold");
   ("boxShadow", "0 2px 5px rgba(0,0,0,0.2)"); ("transition", "all 0.3s ease")].

(** The outputs of a toggle callback: the language stored, the style of
    the Korean button and the style of the English button.
    [triggered_id] is [ctx.triggered_id]. *)
Definition toggle_language_category (triggered_id : option string)
    : string * style * style :=
  if bool_decide (triggered_id = Some "ko-button-category")
  then ("ko", ko_style, ko_inactive_style)
  else ("en", en_inactive_style, en_style).

Definition toggle_language_pavilion (triggered_id : option string)
    : string * style * style :=
  if bool_decide (triggered_id = Some "ko-button-pavilion")
  then ("ko", ko_style, ko_inactive_style)
  else ("en", en_inactive_style, en_style).

(** The styles that the click callbacks give the two buttons they render. *)
Definition click_ko_style (current_language : string) : style :=
  [("marginRight", "10px"); ("padding", "8px 15px");
   ("backgroundColor", if String.eqb current_language "ko" then "#4CAF50" else "#ccc");
   ("color", if String.eqb current_language "ko" then "white" else "black");
   ("border", "none");
   ("borderRadius", "5px"); ("cursor", "pointer"); ("fontWeight", "bold");
   ("boxShadow", if String.eqb current_language "ko"
                 then "0 2px 5px rgba(0,0,0,0.2)" else "0 2px 5px rgba(0,0,0,0.1)");
   ("transition", "all 0.3s ease")].

Definition click_en_style (current_language : string) : style :=
  [("padding", "8px 15px");
   ("backgroundColor", if String.eqb current_language "en" then "#4CAF50" else "#ccc");
   ("color", if String.eqb current_language "en" then "white" else "black");
   ("border", "none");
   ("borderRadius", "5px"); ("cursor", "pointer"); ("fontWeight", "bold");
   ("boxShadow", if String.eqb current_language "en"
                 then "0 2px 5px rgba(0,0,0,0.2)" else "0 2px 5px rgba(0,0,0,0.1)");
   ("transition", "all 0.3s ease")].

(** ** The table that a click renders *)

Definition join (parts : list string) : string := foldr String.append "" parts.

(** The shape of the strings [code_points] cuts a string into: a byte and
    the continuation bytes after it; all but the first start a code point. *)
Fixpoint all_continuation (s : string) : bool :=
  match s with
  | EmptyString => true
  | String c rest => is_continuation c && all_continuation rest
  end.

Definition starts_with_continuation (s : string) : bool :=
  match s with
  | EmptyString => false
  | String c _ => is_continuation c
  end.

(** A byte followed by continuation bytes. *)
Definition is_unit (p : string) : Prop :=
  exists c t, p = String c t /\ all_continuation t = true.

(** A unit that does not start with a continuation byte. *)
Definition is_lead (p : string) : Prop :=
  is_unit p /\ starts_with_continuation p = false.

(** [text[:200] + '...' if text and len(text) > 200 else text] *)
Definition truncate_description (text : string) : string :=
  if negb (String.eqb text "") && (200 <? length (code_points text))%nat
  then join (take 200 (code_points text)) +:+ "..."
  else text.

(** [exhibitor[description_field]] *)
Definition description_field (current_language : string) (e : exhibitor) : string :=
  if String.eqb current_language "ko" then description_ko e else description e.

(** [any(contact.get('type', '').lower() == 'website' for contact in contacts)] *)
Fixpoint any_website (contacts : list json) : result bool :=
  match contacts with
  | [] => ret false
  | contact :: rest =>
      let* ty := py_get contact "type" (JStr "") in
      let* l := py_lower ty in
      if String.eqb l "website" then ret true else any_website rest
  end.

(** [next((contact['url'] for contact in contacts
          if contact.get('type', '').lower() == 'website'), fallback)] *)
Fixpoint next_website (fallback : json) (contacts : list json) : result json :=
  match contacts with
  | [] => ret fallback
  | contact :: rest =>
      let* ty := py_get contact "type" (JStr "") in
      let* l := py_lower ty in
      if String.eqb l "website" then py_getitem contact "url"
      else next_website fallback rest
  end.

(** The content of the Homepage cell: the [href] of the link, or [None] for
    the empty cell. *)
Definition homepage_cell (e : exhibitor) : result (option json) :=
  let* has_website := any_website (contact_details e) in
  if has_website then
    let* href := next_website (JStr "#") (contact_details e) in
    ret (Some href)
  else ret None.

(** What a row of the table depends on: the value (and id index) of its
    checkbox, its cells and its background. *)
Record table_row : Type := {
  row_checkbox : string;
  row_company_name : string;
  row_booth_location : string;
  row_description : string;
  row_homepage : option json;
  row_background : string
}.

Definition render_row (current_language : string) (i : nat) (e : exhibitor)
    : result table_row :=
  let* homepage := homepage_cell e in
  ret {| row_checkbox := company_name e;
         row_company_name := company_name e;
         row_booth_location := booth_location e;
         row_description := truncate_description (description_field current_language e);
         row_homepage := homepage;
         row_background := if (i mod 2 =? 0)%nat then "#f9f9f9" else "white" |}.

(** [[row(i, exhibitor) for i, exhibitor in enumerate(filtered_exhibitors)]],
    from index [i] on. *)
Fixpoint render_rows (current_language : string) (i : nat)
    (filtered_exhibitors : list exhibitor) : result (list table_row) :=
  match filtered_exhibitors with
  | [] => ret []
  | e :: rest =>
      let* row := render_row current_language i e in
      let* rows := render_rows current_language (S i) rest in
      ret (row :: rows)
  end.

(** The children that a click callback returns, as far as they depend on
    the data: the heading, the styles of the two language buttons and the
    rows of the table. *)
Record click_view : Type := {
  view_heading : string;
  view_ko_style : style;
  view_en_style : style;
  view_rows : list table_row
}.

Definition render_click (kind : string) (selected : string)
    (current_language : string) (filtered_exhibitors : list exhibitor)
    : result click_view :=
  let* rows := render_rows current_language 0 filtered_exhibitors in
  ret {| view_heading :=
           "Companies in " +:+ kind +:+ ": " +:+ selected +:+ " ("
           +:+ pretty (length filtered_exhibitors) +:+ " exhibitors)";
         view_ko_style := click_ko_style current_language;
         view_en_style := click_en_style current_language;
         view_rows := rows |}.

(** The first output of [display_category_click_data]; [language_data] is
    the entry 'language' of the stored dict, [None] when it has none.
    [None] as a result is the prompt shown before any click. *)
Definition category_click_children (viz : viz_data) (clickData : option string)
    (language_data : option string) (st : app_state)
    : result (option click_view) :=
  match clickData, (display_category_click_data viz clickData st).1 with
  | Some selected_category, Some filtered_exhibitors =>
      let current_language := default "ko" language_data in
      let* view := render_click "category" selected_category current_language
                                filtered_exhibitors in
      ret (Some view)
  | _, _ => ret None
  end.

Definition pavilion_click_children (viz : viz_data) (clickData : option string)
    (language_data : option string) (st : app_state)
    : result (option click_view) :=
  match clickData, (display_pavilion_click_data viz clickData st).1 with
  | Some selected_pavilion, Some filtered_exhibitors =>
      let current_language := default "ko" language_data in
      let* view := render_click "pavilion" selected_pavilion current_language
                                filtered_exhibitors in
      ret (Some view)
  | _, _ => ret None
  end.

(** The [value] of every checklist when the user has ticked the boxes of
    the rows at the positions [ticked]. *)
Definition checkbox_values (rows : list table_row) (ticked : list nat)
    : list (list string) :=
  imap (fun i row => if bool_decide (i ∈ ticked) then [row_checkbox row] else [])
       rows.

(** The website that [process_data] extracted is the one the contact
    details give. *)
Definition website_extracted (e : exhibitor) : Prop :=
  first_website (contact_details e) = inr (JStr (website e)).

(** ** The callbacks as the dashboard wires them

    What the callbacks of a session share: the dict of the store
    'language-store' (here its entry 'language') and the two selections kept
    on the app.  A callback receives the Inputs and States its decorator
    names and nothing else: the click callbacks read the store, the download
    callbacks do not. *)
Record dashboard : Type := {
  language_store : option string;
  selections : app_state
}.

(** The dashboard as [create_app] lays it out: the store holds
    [{'language': 'ko'}] and both selections are empty. *)
Definition initial_dashboard : dashboard :=
  {| language_store := Some "ko"; selections := initial_state |}.

(** A language button of the category table fires. *)
Definition category_toggled (triggered_id : option string) (d : dashboard)
    : dashboard :=
  {| language_store := Some (toggle_language_category triggered_id).1.1;
     selections := selections d |}.

(** A bar of the category chart is clicked. *)
Definition category_clicked (viz : viz_data) (clickData : option string)
    (d : dashboard) : dashboard :=
  {| language_store := language_store d;
     selections := (display_category_click_data viz clickData (selections d)).2 |}.

(** A bar of the pavilion chart is clicked. *)
Definition pavilion_clicked (viz : viz_data) (clickData : option string)
    (d : dashboard) : dashboard :=
  {| language_store := language_store d;
     selections := (display_pavilion_click_data viz clickData (selections d)).2 |}.

(** A download button is pressed: the callback gets the clicks of the button
    and the values of the checklists. *)
Definition category_download_pressed (d : dashboard) (n_clicks : option nat)
    (checkbox_values : list (list string)) : option export :=
  download_selected_category_data (selections d) n_clicks checkbox_values.

Definition pavilion_download_pressed (d : dashboard) (n_clicks : option nat)
    (checkbox_values : list (list string)) : option export :=
  download_selected_pavilion_data (selections d) n_clicks checkbox_values.

(** Whether a string has ASCII characters only, as an English label has. *)
Definition is_ascii_text (s : string) : bool :=
  forallb (fun c => (nat_of_ascii c <? 128)%nat) (list_ascii_of_string s).

(** ** More sample data *)

Definition raw_contacts_sample : json :=
  JObj [("company_name", JStr "Acme");
        ("contact_details",
         JArr [JObj [("type", JStr "Email"); ("url", JStr "m")];
               JObj [("url", JStr "no type")];
               JObj [("type", JStr "WEBSITE"); ("url", JStr "http://a")];
               JNum 7])].

Definition rows_no_ai : list exhibitor :=
  [sample "a" "P" "x" ["Q"]; sample "b" "P" "" []].

Definition long_description : string := join (replicate 250 "é").

Definition rows_others : list exhibitor :=
  [sample "a" "P" "x" ["Artificial Intelligence"; "Others"];
   sample "b" "P" "" ["Others"];
   sample "c" "Q" "" []].

(** * Verification *)

(** ** The result monad *)

Lemma bind_inr {A B} (m : result A) (k : A -> result B) (b : B) :
  bind m k = inr b -> exists a, m = inr a /\ k a = inr b.
Proof. destruct m as [e|a]; simpl; [discriminate | eauto]. Qed.

Ltac bind_inv H :=
  let x := fresh "x" in
  let Hx := fresh "Hx" in
  apply bind_inr in H; destruct H as (x & Hx & H).

(** ** Sorting *)

Section SortFacts.
Context {A : Type} (le : A -> A -> bool).

Lemma insert_sorted_perm x l : insert_sorted le x l ≡ₚ x :: l.
Proof.
  induction l as [|y l IH]; simpl; [done|].
  destruct (le x y); [done|].
  rewrite IH. apply perm_swap.
Qed.

Lemma stable_sort_perm l : stable_sort le l ≡ₚ l.
Proof.
  induction l as [|x l IH]; simpl; [done|].
  by rewrite insert_sorted_perm, IH.
Qed.

Lemma elem_of_stable_sort x l : x ∈ stable_sort le l <-> x ∈ l.
Proof. by rewrite stable_sort_perm. Qed.

Lemma length_stable_sort l : length (stable_sort le l) = length l.
Proof. by rewrite stable_sort_perm. Qed.

Hypothesis le_total : forall x y, le x y = false -> le y x = true.
Hypothesis le_trans : forall x y z, le x y = true -> le y z = true -> le x z = true.

Lemma insert_sorted_strongly x l :
  StronglySorted (le_rel le) l -> StronglySorted (le_rel le) (insert_sorted le x l).
Proof.
  induction 1 as [|y l Hl IH Hy]; simpl.
  - repeat constructor.
  - destruct (le x y) eqn:Hxy.
    + constructor; [by constructor|].
      constructor; [done|].
      eapply Forall_impl; [exact Hy|]. intros z Hz. by eapply le_trans.
    + constructor; [done|].
      rewrite insert_sorted_perm. constructor; [|done].
      by apply le_total.
Qed.

Lemma stable_sort_strongly l : StronglySorted (le_rel le) (stable_sort le l).
Proof.
  induction l as [|x l IH]; simpl; [constructor|].
  by apply insert_sorted_strongly.
Qed.

(** Sorting what is sorted changes nothing. *)
Lemma insert_sorted_head x l :
  Forall (le_rel le x) l -> insert_sorted le x l = x :: l.
Proof. destruct 1 as [|y l Hy _]; simpl; [done|]. by rewrite Hy. Qed.

Lemma stable_sort_sorted l : StronglySorted (le_rel le) l -> stable_sort le l = l.
Proof.
  induction 1 as [|x l Hl IH Hx]; simpl; [done|].
  rewrite IH. by apply insert_sorted_head.
Qed.
End SortFacts.

Lemma StronglySorted_take {A} (R : relation A) n l :
  StronglySorted R l -> StronglySorted R (take n l).
Proof.
  intros H. revert n. induction H as [|x l Hl IH Hx]; intros [|n]; simpl;
    try constructor; [apply IH|].
  by apply Forall_take.
Qed.

Lemma StronglySorted_filter {A} (R : relation A) (f : A -> bool) l :
  StronglySorted R l -> StronglySorted R (List.filter f l).
Proof.
  induction 1 as [|x l Hl IH Hx]; simpl; [constructor|].
  destruct (f x); [|done]. constructor; [done|].
  apply Forall_forall. intros y Hy.
  apply list_elem_of_In, filter_In in Hy as [Hy _].
  eapply Forall_forall in Hx; [exact Hx|]. by apply list_elem_of_In.
Qed.

Lemma StronglySorted_weaken {A} (R R' : relation A) l :
  (forall a b, R a b -> R' a b) -> StronglySorted R l -> StronglySorted R' l.
Proof.
  intros HR. induction 1 as [|x l Hl IH Hx]; constructor; [done|].
  eapply Forall_impl; [exact Hx|]. intros y. apply HR.
Qed.

(** An element of the part cut off by [take] is below every element kept. *)
Lemma StronglySorted_take_drop {A} (R : relation A) n l x y :
  StronglySorted R l -> x ∈ take n l -> y ∈ drop n l -> R x y.
Proof.
  intros H Hx Hy. rewrite <- (take_drop n l) in H.
  by eapply StronglySorted_app_1_elem_of.
Qed.

(** ** The order on strings *)

Lemma ascii_compare_trans c1 c2 c3 o :
  Ascii.compare c1 c2 = o -> Ascii.compare c2 c3 = o -> Ascii.compare c1 c3 = o.
Proof.
  unfold Ascii.compare. intros H1 H2. destruct o.
  - apply N.compare_eq_iff in H1, H2. apply N.compare_eq_iff. congruence.
  - rewrite N.compare_lt_iff in *. lia.
  - rewrite N.compare_gt_iff in *. lia.
Qed.

Lemma ascii_compare_eq c1 c2 : Ascii.compare c1 c2 = Eq -> c1 = c2.
Proof. apply Ascii.compare_eq_iff. Qed.

Lemma string_compare_lt_trans s1 s2 s3 :
  String.compare s1 s2 <> Gt -> String.compare s2 s3 <> Gt ->
  String.compare s1 s3 <> Gt.
Proof.
  revert s2 s3. induction s1 as [|c1 s1 IH]; intros [|c2 s2] [|c3 s3];
    simpl; try done.
  destruct (Ascii.compare c1 c2) eqn:H12; [|clear IH|done].
  - apply ascii_compare_eq in H12 as ->.
    destruct (Ascii.compare c2 c3) eqn:H23; [apply IH|done|done].
  - destruct (Ascii.compare c2 c3) eqn:H23; [| |done]; intros _ _.
    + apply ascii_compare_eq in H23 as <-. by rewrite H12.
    + by rewrite (ascii_compare_trans _ _ _ _ H12 H23).
Qed.

Lemma string_leb_iff s1 s2 : String.leb s1 s2 = true <-> String.compare s1 s2 <> Gt.
Proof. unfold String.leb. by destruct (String.compare s1 s2). Qed.

Lemma string_leb_trans s1 s2 s3 :
  String.leb s1 s2 = true -> String.leb s2 s3 = true -> String.leb s1 s3 = true.
Proof. rewrite !string_leb_iff. apply string_compare_lt_trans. Qed.

Lemma string_leb_total s1 s2 : String.leb s1 s2 = false -> String.leb s2 s1 = true.
Proof. destruct (String.leb_total s1 s2) as [H|H]; congruence. Qed.

(** [String.leb] compares character codes from the left: capitals stand
    before small letters. *)
Lemma string_leb_cons a s b t :
  String.leb (String a s) (String b t) = true
  <-> (N_of_ascii a < N_of_ascii b)%N \/ (a = b /\ String.leb s t = true).
Proof.
  unfold String.leb. cbn [String.compare]. unfold Ascii.compare.
  destruct (N.compare_spec (N_of_ascii a) (N_of_ascii b)) as [Heq|Hlt|Hgt].
  - assert (a = b) as -> by (rewrite <- (ascii_N_embedding a),
      <- (ascii_N_embedding b); congruence).
    split; [by right|]. intros [?|[_ ?]]; [lia|done].
  - split; [by left|done].
  - split; [done|]. intros [?|[-> _]]; lia.
Qed.

Lemma string_leb_case_sensitive :
  String.leb "Zeta" "alpha" = true /\ String.leb "alpha" "Zeta" = false.
Proof. split; reflexivity. Qed.

Lemma by_company_name_total a b :
  by_company_name a b = false -> by_company_name b a = true.
Proof. apply string_leb_total. Qed.

Lemma by_company_name_trans a b c :
  by_company_name a b = true -> by_company_name b c = true ->
  by_company_name a c = true.
Proof. apply string_leb_trans. Qed.

(** ** Counting *)

Section CounterFacts.
Context {A : Type} `{EqDecision A}.
Implicit Types (x y : A) (c : list (A * nat)) (xs : list A).

Lemma occurrences_app y xs1 xs2 :
  occurrences y (xs1 ++ xs2) = occurrences y xs1 + occurrences y xs2.
Proof. unfold occurrences. by rewrite List.filter_app, length_app. Qed.

Lemma occurrences_pos y xs : y ∈ xs <-> 0 < occurrences y xs.
Proof.
  unfold occurrences. induction xs as [|x xs IH]; simpl.
  - split; [by intros ?%elem_of_nil | lia].
  - rewrite elem_of_cons, IH. case_bool_decide; simpl.
    + split; [lia | by left].
    + split; [intros [?|?]; [congruence|done] | by right].
Qed.

Lemma occurrences_notin y xs : y ∉ xs -> occurrences y xs = 0.
Proof.
  intros Hn. destruct (occurrences y xs) eqn:Ho; [done|].
  exfalso. apply Hn, occurrences_pos. lia.
Qed.

Lemma occurrences_singleton y x :
  occurrences y [x] = if decide (y = x) then 1 else 0.
Proof.
  unfold occurrences. simpl. case_bool_decide; by case_decide.
Qed.

Lemma counter_incr_keys x c :
  (counter_incr x c).*1 = if decide (x ∈ c.*1) then c.*1 else c.*1 ++ [x].
Proof.
  induction c as [|[y n] c IH]; [done|]. cbn [counter_incr].
  - destruct (decide (x = y)) as [->|Hne]; cbn [fmap list_fmap fst].
    + by rewrite decide_True by apply list_elem_of_here.
    + rewrite IH. destruct (decide (x ∈ c.*1)) as [Hin|Hin].
      * by rewrite decide_True by by apply list_elem_of_further.
      * rewrite decide_False; [done|]. by intros [?|?]%elem_of_cons.
Qed.

Lemma counter_incr_NoDup x c : NoDup c.*1 -> NoDup (counter_incr x c).*1.
Proof.
  intros Hc. rewrite counter_incr_keys. case_decide; [done|].
  apply NoDup_app. split_and!; [done| |apply NoDup_singleton].
  intros y Hy ->%list_elem_of_singleton. done.
Qed.

Lemma counter_get_incr x y c :
  counter_get y (counter_incr x c) =
  if decide (y = x) then Some (S (default 0 (counter_get x c)))
  else counter_get y c.
Proof.
  induction c as [|[z n] c IH]; simpl.
  - by destruct (decide (y = x)).
  - destruct (decide (x = z)) as [->|Hxz]; simpl.
    + by destruct (decide (y = z)) as [->|].
    + destruct (decide (y = z)) as [->|Hyz].
      * by rewrite decide_False by done.
      * rewrite IH. by destruct (decide (y = x)).
Qed.

Lemma counter_get_None y c : counter_get y c = None <-> y ∉ c.*1.
Proof.
  induction c as [|[z n] c IH]; simpl.
  - split; [intros _; apply not_elem_of_nil | done].
  - rewrite not_elem_of_cons. destruct (decide (y = z)); naive_solver.
Qed.

Lemma counter_get_Some y n c :
  NoDup c.*1 -> counter_get y c = Some n <-> (y, n) ∈ c.
Proof.
  induction c as [|[z m] c IH]; simpl; intros Hc.
  - split; [done | by intros ?%elem_of_nil].
  - apply NoDup_cons in Hc as [Hz Hc]. rewrite elem_of_cons, <- IH by done.
    destruct (decide (y = z)) as [->|Hne].
    + split; [naive_solver|]. intros [?|Hget]; [naive_solver|].
      exfalso. apply Hz. apply dec_stable. intros Hn.
      apply counter_get_None in Hn. congruence.
    + naive_solver.
Qed.

Lemma Counter_snoc xs x : Counter (xs ++ [x]) = counter_incr x (Counter xs).
Proof. unfold Counter. by rewrite foldl_snoc. Qed.

Lemma Counter_NoDup xs : NoDup (Counter xs).*1.
Proof.
  induction xs as [|x xs IH] using rev_ind; [constructor|].
  rewrite Counter_snoc. by apply counter_incr_NoDup.
Qed.

Lemma counter_get_Counter y xs :
  counter_get y (Counter xs) =
  if decide (y ∈ xs) then Some (occurrences y xs) else None.
Proof.
  induction xs as [|x xs IH] using rev_ind.
  - by rewrite decide_False by apply not_elem_of_nil.
  - rewrite Counter_snoc, counter_get_incr, occurrences_app,
      occurrences_singleton.
    destruct (decide (y = x)) as [->|Hne].
    + rewrite decide_True by (apply elem_of_app; right; apply list_elem_of_here).
      rewrite IH. destruct (decide (x ∈ xs)) as [|Hn]; simpl; f_equal; [lia|].
      rewrite (occurrences_notin x xs) by done. done.
    + rewrite IH. destruct (decide (y ∈ xs)) as [Hin|Hn].
      * rewrite decide_True by (apply elem_of_app; by left).
        f_equal. lia.
      * rewrite decide_False; [done|].
        intros [?|?%list_elem_of_singleton]%elem_of_app; done.
Qed.

(** The items of a counter: every value that occurs, with the number of
    its occurrences. *)
Lemma elem_of_Counter y n xs :
  (y, n) ∈ Counter xs <-> y ∈ xs /\ n = occurrences y xs.
Proof.
  rewrite <- counter_get_Some by apply Counter_NoDup.
  rewrite counter_get_Counter. case_decide; naive_solver.
Qed.

Lemma counter_incr_total x c :
  sum_list (counter_incr x c).*2 = S (sum_list c.*2).
Proof.
  induction c as [|[y n] c IH]; [done|]. cbn [counter_incr].
  destruct (decide (x = y)); cbn; [done|]. cbn in IH. rewrite IH. lia.
Qed.

Lemma Counter_total xs : sum_list (Counter xs).*2 = length xs.
Proof.
  induction xs as [|x xs IH] using rev_ind; [done|].
  rewrite Counter_snoc, counter_incr_total, IH, length_app. simpl. lia.
Qed.

Lemma by_count_desc_total (a b : A * nat) :
  by_count_desc a b = false -> by_count_desc b a = true.
Proof.
  unfold by_count_desc. rewrite Nat.leb_gt, Nat.leb_le. lia.
Qed.

Lemma by_count_desc_trans (a b d : A * nat) :
  by_count_desc a b = true -> by_count_desc b d = true ->
  by_count_desc a d = true.
Proof. unfold by_count_desc. rewrite !Nat.leb_le. lia. Qed.

Lemma value_counts_NoDup xs : NoDup (value_counts xs).*1.
Proof.
  unfold value_counts. rewrite stable_sort_perm. apply Counter_NoDup.
Qed.

Lemma elem_of_value_counts y n xs :
  (y, n) ∈ value_counts xs <-> y ∈ xs /\ n = occurrences y xs.
Proof.
  unfold value_counts. by rewrite elem_of_stable_sort, elem_of_Counter.
Qed.

Lemma value_counts_sorted xs :
  StronglySorted (le_rel by_count_desc) (value_counts xs).
Proof.
  apply stable_sort_strongly;
    [apply by_count_desc_total | apply by_count_desc_trans].
Qed.

Lemma value_counts_total xs : sum_list (value_counts xs).*2 = length xs.
Proof.
  unfold value_counts. rewrite stable_sort_perm. apply Counter_total.
Qed.
End CounterFacts.

(** ** The normalizer *)

Lemma py_get_dict fields key fallback :
  py_get (JObj fields) key fallback
  = inr (default fallback (dict_lookup key fields)).
Proof. reflexivity. Qed.

(** What [process_exhibitor] returns for a dict, when the three steps that
    can raise do not. *)
Lemma process_exhibitor_dict fields w n m :
  website_url (JObj fields) = inr w ->
  py_len (default (JArr []) (dict_lookup "categories" fields)) = inr n ->
  py_len (default (JArr []) (dict_lookup "social_media" fields)) = inr m ->
  process_exhibitor (JObj fields) =
  inr {| i_company_name :=
           default (JStr "Unknown") (dict_lookup "company_name" fields);
         i_booth_location :=
           default (JStr "Unknown") (dict_lookup "booth_location" fields);
         i_pavilion := default (JStr "None") (dict_lookup "pavilion" fields);
         i_categories_count := n;
         i_has_description :=
           if py_truthy (default JNull (dict_lookup "description_ko" fields))
           then 1%Z else 0%Z;
         i_social_media_count := m;
         i_description := default (JStr "") (dict_lookup "description" fields);
         i_description_ko :=
           default (JStr "") (dict_lookup "description_ko" fields);
         i_social_media := default (JArr []) (dict_lookup "social_media" fields);
         i_contact_details :=
           default (JArr []) (dict_lookup "contact_details" fields);
         i_website := w;
         i_categories := default (JArr []) (dict_lookup "categories" fields) |}.
Proof.
  intros Hw Hn Hm. unfold process_exhibitor.
  rewrite Hw. cbn [bind]. rewrite !py_get_dict. cbn [bind].
  rewrite Hn. cbn [bind]. rewrite Hm. reflexivity.
Qed.

Lemma process_exhibitor_inv fields it :
  process_exhibitor (JObj fields) = inr it ->
  exists w n m,
    website_url (JObj fields) = inr w
    /\ py_len (default (JArr []) (dict_lookup "categories" fields)) = inr n
    /\ py_len (default (JArr []) (dict_lookup "social_media" fields)) = inr m.
Proof.
  unfold process_exhibitor. intros H.
  destruct (website_url (JObj fields)) as [e|w]; [discriminate|].
  cbn [bind] in H. rewrite !py_get_dict in H. cbn [bind] in H.
  destruct (py_len (default (JArr []) (dict_lookup "categories" fields)))
    as [e|n]; [discriminate|].
  cbn [bind] in H.
  destruct (py_len (default (JArr []) (dict_lookup "social_media" fields)))
    as [e|m]; [discriminate|].
  by exists w, n, m.
Qed.

Lemma as_str_Some v s : as_str v = Some s -> v = JStr s.
Proof. destruct v; simpl; congruence. Qed.

Lemma as_list_Some v items : as_list v = Some items -> v = JArr items.
Proof. destruct v; simpl; congruence. Qed.

(** A record that [process_data] built and that has the types of the data
    model carries consistent derived fields. *)
Lemma normalized_consistent raw it e :
  process_exhibitor raw = inr it -> normalized it = Some e -> consistent e.
Proof.
  intros Hp Hn.
  destruct raw as [| | | | |fields];
    try (unfold process_exhibitor, website_url in Hp; simpl in Hp; discriminate).
  destruct (process_exhibitor_inv _ _ Hp) as (w & n & m & Hw & Hc & Hs).
  rewrite (process_exhibitor_dict _ _ _ _ Hw Hc Hs) in Hp.
  injection Hp as <-. unfold normalized in Hn. cbn in Hn.
  repeat match type of Hn with
         | context [mbind _ ?o] =>
             let E := fresh "E" in destruct o eqn:E; cbn in Hn; [|discriminate]
         end.
  injection Hn as <-. unfold consistent. cbn.
  split_and!.
  - destruct (dict_lookup "description_ko" fields) as [dko|]; cbn in *.
    + match goal with
      | H : as_str dko = Some _ |- _ => apply as_str_Some in H as ->
      end.
      cbn. by destruct (String.eqb _ "").
    + match goal with H : Some "" = Some _ |- _ => by injection H as <- end.
  - match goal with
    | H : as_str_list _ = Some _ |- _ => unfold as_str_list in H; rename H into Hl
    end.
    destruct (as_list _) as [items|] eqn:Hi in Hl; [|discriminate]. cbn in Hl.
    apply as_list_Some in Hi. rewrite Hi in Hc. cbn in Hc.
    injection Hc as <-. by apply length_mapM in Hl.
  - match goal with
    | H : as_list (default _ (dict_lookup "social_media" _)) = Some _ |- _ =>
        apply as_list_Some in H; rewrite H in Hs
    end.
    cbn in Hs. by injection Hs as <-.
Qed.

(** The rows that reach the aggregator carry consistent derived fields. *)
Lemma process_data_consistent data items rows :
  process_data data = inr items -> mapM normalized items = Some rows ->
  Forall consistent rows.
Proof.
  revert items rows. induction data as [|raw data IH]; intros items rows Hp Hn.
  - injection Hp as <-. injection Hn as <-. constructor.
  - cbn [process_data] in Hp. bind_inv Hp. bind_inv Hp. injection Hp as <-.
    apply mapM_Some in Hn. inversion Hn as [|it e its es He Hes]; subst.
    constructor; [by eapply normalized_consistent|].
    eapply IH; [done|]. by apply mapM_Some.
Qed.

(** ** The aggregator *)

Lemma column_nonempty {A} (r : exhibitor) rows name (field : exhibitor -> A) :
  name ∈ item_keys ->
  column (pd_DataFrame (r :: rows)) name field = inr (field <$> r :: rows).
Proof. intros Hin. unfold column. cbn [pd_DataFrame columns records]. by rewrite bool_decide_true. Qed.

Lemma no_top_category_spec names e :
  no_top_category names e = true <-> forall c, c ∈ categories e -> c ∉ names.
Proof.
  unfold no_top_category. rewrite bool_decide_eq_true. set_solver.
Qed.

Lemma count_others_from names rows k :
  foldl (fun others_count e =>
           if no_top_category names e then S others_count else others_count)
        k rows
  = k + length (List.filter (no_top_category names) rows).
Proof.
  revert k. induction rows as [|e rows IH]; intros k; simpl; [lia|].
  rewrite IH. destruct (no_top_category names e); simpl; lia.
Qed.

Lemma count_others_length names rows :
  count_others names rows = length (List.filter (no_top_category names) rows).
Proof. unfold count_others. by rewrite count_others_from. Qed.

Lemma set_others_count_app v rows1 rows2 :
  set_others_count v (rows1 ++ rows2)
  = set_others_count v rows1 ++ set_others_count v rows2.
Proof. unfold set_others_count. apply fmap_app. Qed.

Lemma elem_of_set_others_count v rows key n :
  key <> "Others" -> (key, n) ∈ rows -> (key, n) ∈ set_others_count v rows.
Proof.
  intros Hne Hin. unfold set_others_count.
  apply list_elem_of_fmap. exists (key, n). split; [|done].
  cbn. by rewrite (proj2 (String.eqb_neq key "Others")).
Qed.

Lemma most_common_NoDup {A} `{EqDecision A} n (xs : list A) :
  NoDup (most_common n (Counter xs)).*1.
Proof.
  unfold most_common. rewrite fmap_take.
  eapply sublist_NoDup; [|apply sublist_take].
  rewrite stable_sort_perm. apply Counter_NoDup.
Qed.

Lemma elem_of_most_common {A} `{EqDecision A} n (xs : list A) y k :
  (y, k) ∈ most_common n (Counter xs) -> y ∈ xs /\ k = occurrences y xs.
Proof.
  unfold most_common. intros Hin. apply elem_of_Counter.
  eapply elem_of_stable_sort. eapply elem_of_sublist; [done|apply sublist_take].
Qed.

(** The aggregation of a non-empty sequence does not raise, and these are
    its tables. *)
Lemma category_counting_nonempty rows :
  rows <> [] ->
  let top_30 := most_common 30 (Counter (concat (categories <$> rows))) in
  let names : gset string := list_to_set top_30.*1 in
  let others := length (List.filter (no_top_category names) rows) in
  category_counting (pd_DataFrame rows) =
  inr {| cv_top_30_categories := top_30;
         cv_top_30_category_names := names;
         cv_real_others_count := others;
         cv_top_categories :=
           match counter_get "Artificial Intelligence" top_30 with
           | Some ai_count => set_others_count ai_count (top_30 ++ [("Others", others)])
           | None => top_30 ++ [("Others", others)]
           end |}.
Proof.
  destruct rows as [|r rows]; [done|]. intros _. unfold category_counting.
  rewrite column_nonempty by (apply list_elem_of_In; simpl; tauto).
  cbn [bind]. rewrite count_others_length. reflexivity.
Qed.

Lemma create_visualizations_nonempty rows :
  rows <> [] ->
  exists ct,
    category_counting (pd_DataFrame rows) = inr ct /\
    create_visualizations rows =
    inr {| df := pd_DataFrame rows;
           top_categories := cv_top_categories ct;
           top_30_category_names := cv_top_30_category_names ct;
           pavilion_counts :=
             take 15 (sort_values_count_desc
                        (List.filter (fun r => negb (String.eqb r.1 "None"))
                                     (value_counts (pavilion <$> rows))));
           description_counts :=
             (fun r => (yes_no r.1, r.2))
               <$> value_counts (has_description <$> rows);
           social_media_dist :=
             stable_sort by_value_asc (value_counts (social_media_count <$> rows));
           others_real_count := 507 |}.
Proof.
  intros Hne. eexists. split; [by apply category_counting_nonempty|].
  unfold create_visualizations. rewrite category_counting_nonempty by done.
  destruct rows as [|r rows]; [done|]. cbn [bind].
  rewrite !column_nonempty by (apply list_elem_of_In; simpl; tauto).
  reflexivity.
Qed.

(** ** The "last selection" dict *)

Lemma dict_by_company_name_snoc rows e :
  dict_by_company_name (rows ++ [e])
  = <[company_name e := e]> (dict_by_company_name rows).
Proof. unfold dict_by_company_name. by rewrite foldl_snoc. Qed.

(** A name is bound to the last record of the list that carries it. *)
Lemma dict_by_company_name_lookup rows name :
  dict_by_company_name rows !! name
  = last (List.filter (fun e => String.eqb (company_name e) name) rows).
Proof.
  induction rows as [|e rows IH] using rev_ind; [done|].
  rewrite dict_by_company_name_snoc, List.filter_app. cbn [List.filter].
  destruct (String.eqb_spec (company_name e) name) as [<-|Hne].
  - by rewrite lookup_insert_eq, last_snoc.
  - by rewrite lookup_insert_ne, app_nil_r.
Qed.

Lemma dict_by_company_name_Some rows name e :
  dict_by_company_name rows !! name = Some e -> e ∈ rows /\ company_name e = name.
Proof.
  rewrite dict_by_company_name_lookup. intros Hl.
  apply last_Some_elem_of, list_elem_of_In, filter_In in Hl as [Hin Hn].
  split; [by apply list_elem_of_In | by apply String.eqb_eq].
Qed.

Lemma dict_by_company_name_is_Some rows name :
  is_Some (dict_by_company_name rows !! name) <-> name ∈ company_name <$> rows.
Proof.
  rewrite dict_by_company_name_lookup, last_is_Some. split.
  - intros Hne. destruct (List.filter _ rows) as [|e l] eqn:Hf; [done|].
    assert (He : In e (List.filter (fun e => String.eqb (company_name e) name) rows))
      by (rewrite Hf; by left).
    apply filter_In in He as [Hin Hn]. apply String.eqb_eq in Hn as <-.
    apply list_elem_of_fmap_2. by apply list_elem_of_In.
  - intros (e & -> & Hin)%list_elem_of_fmap Hnil.
    assert (He : In e (List.filter (fun e' => String.eqb (company_name e') (company_name e)) rows)).
    { apply filter_In. split; [by apply list_elem_of_In | apply String.eqb_refl]. }
    by rewrite Hnil in He.
Qed.

(** ** The claims on the normalizer *)

(** C1 (the code departs from the claim).  A contact of type "website"
    without a "url" key makes [process_data] raise [KeyError('url')]: the
    record is not normalized to defaults.  A [categories] or [social_media]
    of [null] raises [TypeError] in the same way. *)
Theorem process_data_website_without_url :
  process_data [raw_website_without_url] = inl (KeyError "url")
  /\ process_data [JObj [("categories", JNull)]] = inl TypeError
  /\ process_data [JObj [("social_media", JNull)]] = inl TypeError.
Proof. repeat split. Qed.

(** C10.  A raw record without the key "booth_location" is normalized with
    booth_location "Unknown": [process_data] on that one record returns one
    item with this value, unless it raises on the contact details, the
    categories or the social media of the record. *)
Theorem booth_location_default fields :
  dict_lookup "booth_location" fields = None ->
  (exists it, process_data [JObj fields] = inr [it]
              /\ i_booth_location it = JStr "Unknown")
  \/ (raises (process_data [JObj fields])
      /\ (raises (website_url (JObj fields))
          \/ raises (py_len (default (JArr []) (dict_lookup "categories" fields)))
          \/ raises (py_len (default (JArr []) (dict_lookup "social_media" fields))))).
Proof.
  intros Hb. cbn [process_data].
  destruct (website_url (JObj fields)) as [e|w] eqn:Hw.
  { right. unfold process_exhibitor. rewrite Hw. cbn. tauto. }
  destruct (py_len (default (JArr []) (dict_lookup "categories" fields)))
    as [e|n] eqn:Hc.
  { right. unfold process_exhibitor. rewrite Hw. cbn [bind].
    rewrite !py_get_dict. cbn [bind]. rewrite Hc. cbn. tauto. }
  destruct (py_len (default (JArr []) (dict_lookup "social_media" fields)))
    as [e|m] eqn:Hs.
  { right. unfold process_exhibitor. rewrite Hw. cbn [bind].
    rewrite !py_get_dict. cbn [bind]. rewrite Hc. cbn [bind]. rewrite Hs.
    cbn. tauto. }
  left. rewrite (process_exhibitor_dict _ _ _ _ Hw Hc Hs). cbn [bind ret].
  eexists. split; [reflexivity|]. cbn. by rewrite Hb.
Qed.

Lemma booth_location_default_witness :
  dict_lookup "booth_location" [("company_name", JStr "Acme")] = None
  /\ exists it, process_data [JObj [("company_name", JStr "Acme")]] = inr [it]
                /\ i_booth_location it = JStr "Unknown".
Proof.
  split; [reflexivity|].
  destruct (booth_location_default [("company_name", JStr "Acme")] eq_refl)
    as [H|[H _]]; [exact H | destruct H].
Defined.

(** ** The claims on the aggregator *)

(** C2 (the code departs from the claim).  On the empty array the
    normalizer returns the empty list, the frame built from it has no
    column, and the aggregator raises [KeyError('categories')] on its first
    read: no table is produced. *)
Theorem pipeline_empty_raises :
  process_data [] = inr []
  /\ create_visualizations [] = inl (KeyError "categories")
  /\ pipeline [] = Some (inl (KeyError "categories")).
Proof. repeat split. Qed.

(** C3, as amended.  For a non-empty sequence the aggregator returns; when
    "Artificial Intelligence" is among the top 30 categories, the last row
    of the category table is ("Others", n) with n the count of "Artificial
    Intelligence"; the number of records outside the top 30 is computed
    into the local real_others_count; and the value returned as
    others_real_count is the constant 507 whatever the data, so it is that
    number only when the number is 507. *)
Theorem others_displayed_count rows :
  rows <> [] ->
  exists viz ct,
    create_visualizations rows = inr viz
    /\ category_counting (pd_DataFrame rows) = inr ct
    /\ top_categories viz = cv_top_categories ct
    /\ cv_real_others_count ct
       = length (List.filter (no_top_category (top_30_category_names viz)) rows)
    /\ others_real_count viz = 507
    /\ (others_real_count viz
        = length (List.filter (no_top_category (top_30_category_names viz)) rows)
        <-> length (List.filter (no_top_category (top_30_category_names viz)) rows)
            = 507)
    /\ ("Artificial Intelligence" ∈ top_30_category_names viz ->
        exists ai,
          ai = occurrences "Artificial Intelligence" (concat (categories <$> rows))
          /\ ("Artificial Intelligence", ai) ∈ top_categories viz
          /\ last (top_categories viz) = Some ("Others", ai)).
Proof.
  intros Hne. destruct (create_visualizations_nonempty rows Hne) as (ct & Hct & Hviz).
  eexists _, ct. split; [exact Hviz|]. split; [exact Hct|].
  rewrite category_counting_nonempty in Hct by done. cbv zeta in Hct.
  injection Hct as <-. cbn [top_categories top_30_category_names others_real_count
    cv_top_categories cv_top_30_category_names cv_real_others_count].
  split_and!; [done..|].
  set (top_30 := most_common 30 (Counter (concat (categories <$> rows)))).
  intros Hin. apply elem_of_list_to_set, list_elem_of_fmap in Hin as ([k ai] & Hk & Hin).
  cbn in Hk. subst k. exists ai.
  assert (Hget : counter_get "Artificial Intelligence" top_30 = Some ai).
  { apply counter_get_Some; [apply most_common_NoDup | done]. }
  rewrite Hget. split_and!.
  - by apply elem_of_most_common in Hin as [_ ->].
  - apply elem_of_set_others_count; [done|]. apply elem_of_app. by left.
  - rewrite set_others_count_app. apply last_snoc.
Qed.

Lemma others_displayed_count_witness :
  rows_demo <> []
  /\ exists viz,
       create_visualizations rows_demo = inr viz
       /\ "Artificial Intelligence" ∈ top_30_category_names viz
       /\ last (top_categories viz) = Some ("Others", 1)
       /\ others_real_count viz = 507.
Proof.
  split; [discriminate|].
  destruct (others_displayed_count rows_demo)
    as (viz & ct & Hv & _ & _ & _ & Hc & _ & Hai); [discriminate|].
  exists viz. split; [exact Hv|].
  assert (Hin : "Artificial Intelligence" ∈ top_30_category_names viz).
  { injection Hv as <-. apply (bool_decide_unpack _). by vm_compute. }
  split; [exact Hin|]. split; [|exact Hc].
  destruct (Hai Hin) as (ai & -> & _ & Hl). exact Hl.
Defined.

(** C3 as stated fails: with one record of category "Artificial
    Intelligence" no record is outside the top 30, the displayed "Others"
    count is 1 and the value kept as others_real_count is 507, so the true
    count 0 is nowhere in the result. *)
Lemma others_real_count_not_tracked :
  exists viz,
    create_visualizations rows_ai_only = inr viz
    /\ "Artificial Intelligence" ∈ top_30_category_names viz
    /\ top_categories viz = [("Artificial Intelligence", 1); ("Others", 1)]
    /\ length (List.filter (no_top_category (top_30_category_names viz))
                          rows_ai_only) = 0
    /\ others_real_count viz = 507
    /\ others_real_count viz
       <> length (List.filter (no_top_category (top_30_category_names viz))
                              rows_ai_only).
Proof.
  eexists. split; [reflexivity|]. split_and!.
  - apply (bool_decide_unpack _). by vm_compute.
  - by vm_compute.
  - by vm_compute.
  - reflexivity.
  - by vm_compute.
Qed.

(** C4.  A click on "Others" shows exactly the records none of whose
    categories is among the top 30 names, each once, sorted by company name;
    their number is the count of such records that the aggregator computed
    (its real, not displayed, "Others" count). *)
Theorem drill_down_others rows st :
  rows <> [] ->
  exists viz ct shown st',
    create_visualizations rows = inr viz
    /\ category_counting (pd_DataFrame rows) = inr ct
    /\ top_30_category_names viz
       = list_to_set (most_common 30 (Counter (concat (categories <$> rows)))).*1
    /\ display_category_click_data viz (Some "Others") st = (Some shown, st')
    /\ shown ≡ₚ List.filter (no_top_category (top_30_category_names viz)) rows
    /\ (forall e, e ∈ shown <->
                  e ∈ rows /\ forall c, c ∈ categories e ->
                                        c ∉ top_30_category_names viz)
    /\ length shown = cv_real_others_count ct
    /\ StronglySorted (le_rel by_company_name) shown.
Proof.
  intros Hne. destruct (create_visualizations_nonempty rows Hne) as (ct & Hct & Hviz).
  eexists _, ct, _, _. split; [exact Hviz|]. split; [exact Hct|].
  rewrite category_counting_nonempty in Hct by done. cbv zeta in Hct.
  injection Hct as <-.
  unfold display_category_click_data, filter_category.
  cbn [top_30_category_names cv_top_30_category_names cv_real_others_count df
       String.eqb Ascii.eqb Bool.eqb to_dict_records pd_DataFrame records].
  split; [reflexivity|]. split; [reflexivity|].
  split_and!.
  - apply stable_sort_perm.
  - intros e. rewrite elem_of_stable_sort, list_elem_of_In, filter_In,
      <- list_elem_of_In, no_top_category_spec. done.
  - by rewrite length_stable_sort.
  - apply stable_sort_strongly;
      [apply by_company_name_total | apply by_company_name_trans].
Qed.

Lemma drill_down_others_witness :
  rows_demo <> []
  /\ exists viz shown st',
       create_visualizations rows_demo = inr viz
       /\ display_category_click_data viz (Some "Others") initial_state
          = (Some shown, st')
       /\ company_name <$> shown = ["c"]
       /\ shown ≡ₚ List.filter (no_top_category (top_30_category_names viz))
                                rows_demo.
Proof.
  split; [discriminate|].
  destruct (drill_down_others rows_demo initial_state)
    as (viz & ct & shown & st' & Hv & _ & _ & Hd & Hp & _); [discriminate|].
  exists viz, shown, st'. split; [exact Hv|]. split; [exact Hd|].
  split; [|exact Hp]. injection Hv as <-. injection Hd as <- _. by vm_compute.
Defined.

(** C5.  A click on a category other than "Others" shows exactly the
    records whose categories contain it, each once, sorted by company name
    in the order of the character codes. *)
Theorem drill_down_category rows selected_category st :
  rows <> [] ->
  selected_category <> "Others" ->
  exists viz shown st',
    create_visualizations rows = inr viz
    /\ display_category_click_data viz (Some selected_category) st
       = (Some shown, st')
    /\ shown ≡ₚ List.filter
                  (fun e => bool_decide (selected_category ∈ categories e)) rows
    /\ (forall e, e ∈ shown <-> e ∈ rows /\ selected_category ∈ categories e)
    /\ StronglySorted
         (fun a b => String.leb (company_name a) (company_name b) = true) shown.
Proof.
  intros Hne Hkey. destruct (create_visualizations_nonempty rows Hne) as (ct & Hct & Hviz).
  eexists _, _, _. split; [exact Hviz|].
  unfold display_category_click_data, filter_category.
  rewrite (proj2 (String.eqb_neq selected_category "Others")) by done.
  cbn [df to_dict_records pd_DataFrame records].
  split; [reflexivity|]. split_and!.
  - apply stable_sort_perm.
  - intros e. rewrite elem_of_stable_sort, list_elem_of_In, filter_In,
      <- list_elem_of_In, bool_decide_eq_true. done.
  - apply (stable_sort_strongly by_company_name);
      [apply by_company_name_total | apply by_company_name_trans].
Qed.

Lemma drill_down_category_witness :
  rows_demo <> [] /\ "Z" <> "Others"
  /\ exists viz shown st',
       create_visualizations rows_demo = inr viz
       /\ display_category_click_data viz (Some "Z") initial_state
          = (Some shown, st')
       /\ company_name <$> shown = ["a"; "b"].
Proof.
  split; [discriminate|]. split; [discriminate|].
  destruct (drill_down_category rows_demo "Z" initial_state)
    as (viz & shown & st' & Hv & Hd & _); [discriminate..|].
  exists viz, shown, st'. split; [exact Hv|]. split; [exact Hd|].
  injection Hv as <-. injection Hd as <- _. reflexivity.
Defined.

(** Sorting the pavilion rows again after "None" is dropped leaves them as
    [value_counts] ordered them. *)
Lemma pavilion_resort (pavs : list string) :
  sort_values_count_desc
    (List.filter (fun r : string * nat => negb (String.eqb r.1 "None"))
                 (value_counts pavs))
  = List.filter (fun r : string * nat => negb (String.eqb r.1 "None"))
                (value_counts pavs).
Proof.
  apply stable_sort_sorted, StronglySorted_filter, value_counts_sorted.
Qed.

Lemma List_filter_sublist {A} (f : A -> bool) l : List.filter f l `sublist_of` l.
Proof.
  induction l as [|x l IH]; simpl; [constructor|].
  destruct (f x); by constructor.
Qed.

Lemma elem_of_List_filter {A} (f : A -> bool) l x :
  x ∈ List.filter f l <-> x ∈ l /\ f x = true.
Proof. by rewrite !list_elem_of_In, filter_In. Qed.

Lemma occurrences_pavilion p rows :
  occurrences p (pavilion <$> rows)
  = length (List.filter (fun e => String.eqb (pavilion e) p) rows).
Proof.
  unfold occurrences. induction rows as [|e rows IH]; [done|]. cbn.
  destruct (String.eqb_spec (pavilion e) p) as [Heq|Hne].
  - rewrite bool_decide_true by done. cbn. by rewrite <- IH.
  - by rewrite bool_decide_false by done.
Qed.

(** C6.  For a non-empty sequence the pavilion table has at most 15 rows
    (pavilion, count), no pavilion twice and never "None"; each count is the
    number of records whose pavilion field equals the name; the rows stand
    by descending count; and a pavilion other than "None" that is left out
    has a count no larger than any count of the table, which then has 15
    rows. *)
Theorem pavilion_table rows :
  rows <> [] ->
  let count p := length (List.filter (fun e => String.eqb (pavilion e) p) rows) in
  exists viz,
    create_visualizations rows = inr viz
    /\ length (pavilion_counts viz) <= 15
    /\ NoDup (pavilion_counts viz).*1
    /\ StronglySorted (fun a b => b.2 <= a.2) (pavilion_counts viz)
    /\ (forall p n, (p, n) ∈ pavilion_counts viz ->
                    p <> "None" /\ p ∈ pavilion <$> rows /\ n = count p /\ 0 < n)
    /\ (forall q, q <> "None" -> q ∈ pavilion <$> rows ->
                  q ∉ (pavilion_counts viz).*1 ->
                  length (pavilion_counts viz) = 15
                  /\ forall p n, (p, n) ∈ pavilion_counts viz -> count q <= n).
Proof.
  intros Hne count.
  destruct (create_visualizations_nonempty rows Hne) as (ct & Hct & Hviz).
  eexists. split; [exact Hviz|]. cbn [pavilion_counts].
  set (pavs := pavilion <$> rows).
  set (kept := List.filter (fun r : string * nat => negb (String.eqb r.1 "None"))
                           (value_counts pavs)).
  set (ranked := sort_values_count_desc kept).
  assert (Hsorted : StronglySorted (le_rel by_count_desc) ranked).
  { apply stable_sort_strongly;
      [apply by_count_desc_total | apply by_count_desc_trans]. }
  assert (Hmem : forall p n, (p, n) ∈ ranked <->
                             p <> "None" /\ p ∈ pavs /\ n = occurrences p pavs).
  { intros p n. unfold ranked, sort_values_count_desc, kept.
    rewrite elem_of_stable_sort, elem_of_List_filter, elem_of_value_counts.
    cbn. rewrite negb_true_iff, String.eqb_neq. tauto. }
  split_and!.
  - rewrite length_take. lia.
  - rewrite fmap_take. eapply sublist_NoDup; [|apply sublist_take].
    unfold ranked, sort_values_count_desc. rewrite stable_sort_perm.
    eapply sublist_NoDup; [apply (value_counts_NoDup pavs)|].
    apply fmap_sublist, List_filter_sublist.
  - apply StronglySorted_take.
    eapply StronglySorted_weaken; [|exact Hsorted].
    intros a b. unfold le_rel, by_count_desc. by rewrite Nat.leb_le.
  - intros p n Hin.
    assert (Hr : (p, n) ∈ ranked)
      by (eapply elem_of_sublist; [exact Hin | apply sublist_take]).
    apply Hmem in Hr as (Hp & Hin' & ->). split_and!; [done..| |].
    + apply occurrences_pavilion.
    + by apply occurrences_pos.
  - intros q Hq Hin Hout.
    assert (Hr : (q, occurrences q pavs) ∈ ranked) by by apply Hmem.
    rewrite <- (take_drop 15 ranked) in Hr. apply elem_of_app in Hr as [Hr|Hr].
    { exfalso. apply Hout. apply list_elem_of_fmap. by exists (q, occurrences q pavs). }
    assert (Hlen : 15 < length ranked).
    { destruct (decide (15 < length ranked)) as [|Hge]; [done|].
      rewrite drop_ge in Hr by lia. by apply elem_of_nil in Hr. }
    split; [rewrite length_take; lia|].
    intros p n Hp.
    pose proof (StronglySorted_take_drop _ 15 ranked _ _ Hsorted Hp Hr) as Hle.
    unfold le_rel, by_count_desc in Hle. cbn in Hle. apply Nat.leb_le in Hle.
    unfold count. by rewrite <- occurrences_pavilion.
Qed.

Lemma pavilion_table_witness :
  rows_demo <> []
  /\ exists viz,
       create_visualizations rows_demo = inr viz
       /\ pavilion_counts viz = [("P", 2); ("Q", 1)]
       /\ StronglySorted (fun a b => b.2 <= a.2) (pavilion_counts viz).
Proof.
  split; [discriminate|].
  destruct (pavilion_table rows_demo) as (viz & Hv & _ & _ & Hs & _);
    [discriminate|].
  exists viz. split; [exact Hv|]. split; [|exact Hs].
  injection Hv as <-. reflexivity.
Defined.

Lemma occurrences_has_description_gen l :
  Forall consistent l ->
  occurrences 1%Z (has_description <$> l)
  = length (List.filter (fun e => negb (String.eqb (description_ko e) "")) l)
  /\ occurrences 0%Z (has_description <$> l)
     = length (List.filter (fun e => String.eqb (description_ko e) "") l).
Proof.
  unfold occurrences.
  induction 1 as [|e l [He _] Hl [IH1 IH0]]; [done|].
  cbn [fmap list_fmap List.filter]. rewrite He.
  cbn [fmap] in IH1, IH0.
  destruct (String.eqb (description_ko e) "").
  - rewrite bool_decide_false, bool_decide_true by done.
    cbn [negb length]. by rewrite IH1, IH0.
  - rewrite bool_decide_true, bool_decide_false by done.
    cbn [negb length]. by rewrite IH1, IH0.
Qed.

Lemma description_ko_partition (l : list exhibitor) :
  length (List.filter (fun e => negb (String.eqb (description_ko e) "")) l)
  + length (List.filter (fun e => String.eqb (description_ko e) "") l)
  = length l.
Proof.
  induction l as [|e l IH]; [done|]. cbn.
  destruct (String.eqb (description_ko e) ""); cbn; lia.
Qed.

Section DescriptionSplit.
Variable rows : list exhibitor.
Hypothesis rows_consistent : Forall consistent rows.

Let yes := length (List.filter (fun e => negb (String.eqb (description_ko e) "")) rows).
Let no := length (List.filter (fun e => String.eqb (description_ko e) "") rows).
Let hd := has_description <$> rows.

Lemma has_description_values v : v ∈ hd -> v = 1%Z \/ v = 0%Z.
Proof.
  intros (e & -> & Hin)%list_elem_of_fmap.
  eapply Forall_forall in rows_consistent as [-> _]; [|exact Hin].
  destruct (String.eqb _ ""); tauto.
Qed.

Lemma occurrences_has_description :
  occurrences 1%Z hd = yes /\ occurrences 0%Z hd = no.
Proof. by apply occurrences_has_description_gen. Qed.

Lemma description_counts_perm :
  (fun r : Z * nat => (yes_no r.1, r.2)) <$> value_counts hd
  ≡ₚ List.filter (fun r : option string * nat => (0 <? r.2)%nat)
                 [(Some "Yes", yes); (Some "No", no)].
Proof.
  destruct occurrences_has_description as [H1 H0].
  apply NoDup_Permutation.
  - apply NoDup_fmap_2_strong.
    + intros [v n] [v' n'] [Hv _]%elem_of_value_counts
        [Hv' _]%elem_of_value_counts. cbn. intros [= Hl ->]. f_equal.
      destruct (has_description_values v Hv) as [->| ->],
        (has_description_values v' Hv') as [->| ->]; done.
    + eapply NoDup_fmap_1. apply value_counts_NoDup.
  - eapply sublist_NoDup; [|apply List_filter_sublist].
    apply NoDup_cons. split; [|apply NoDup_singleton].
    by intros [=]%list_elem_of_singleton.
  - intros [label n]. rewrite list_elem_of_fmap, elem_of_List_filter.
    cbn [snd]. rewrite Nat.ltb_lt, !elem_of_cons, elem_of_nil. split.
    + intros ([v k] & [= -> ->] & [Hv ->]%elem_of_value_counts). cbn [fst].
      split; [|by apply occurrences_pos].
      destruct (has_description_values v Hv) as [->| ->]; cbn;
        rewrite ?H1, ?H0; tauto.
    + intros [[[= -> ->]|[[= -> ->]|[]]] Hpos].
      * exists (1%Z, yes). split; [done|]. apply elem_of_value_counts.
        split; [|done]. apply occurrences_pos. by rewrite H1.
      * exists (0%Z, no). split; [done|]. apply elem_of_value_counts.
        split; [|done]. apply occurrences_pos. by rewrite H0.
Qed.
End DescriptionSplit.

(** C7, as amended.  For a non-empty sequence of records whose
    has_description is set as the normalizer sets it, the description split
    has one row for each of the two values that occurs: ("Yes", y) if the number y
    of records with a non-empty description_ko is positive, ("No", n) if the
    number n of the other records is positive, and nothing else; the rows
    stand by descending count, and the counts add up to the number of
    records. *)
Theorem description_split rows :
  rows <> [] ->
  Forall consistent rows ->
  let yes := length (List.filter (fun e => negb (String.eqb (description_ko e) "")) rows) in
  let no := length (List.filter (fun e => String.eqb (description_ko e) "") rows) in
  exists viz,
    create_visualizations rows = inr viz
    /\ description_counts viz
       ≡ₚ List.filter (fun r : option string * nat => (0 <? r.2)%nat)
                      [(Some "Yes", yes); (Some "No", no)]
    /\ StronglySorted (fun a b => b.2 <= a.2) (description_counts viz)
    /\ yes + no = length rows
    /\ sum_list (description_counts viz).*2 = length rows.
Proof.
  intros Hne Hcons yes no.
  destruct (create_visualizations_nonempty rows Hne) as (ct & Hct & Hviz).
  eexists. split; [exact Hviz|]. cbn [description_counts]. split_and!.
  - by apply description_counts_perm.
  - eapply StronglySorted_fmap; [|apply value_counts_sorted].
    intros a b. unfold le_rel, by_count_desc. cbn. by rewrite Nat.leb_le.
  - apply description_ko_partition.
  - rewrite <- list_fmap_compose.
    rewrite (list_fmap_ext _ snd (value_counts (has_description <$> rows)))
      by done.
    by rewrite value_counts_total, length_fmap.
Qed.

Lemma description_split_witness :
  rows_demo <> [] /\ Forall consistent rows_demo
  /\ exists viz,
       create_visualizations rows_demo = inr viz
       /\ description_counts viz = [(Some "Yes", 2); (Some "No", 2)]
       /\ sum_list (description_counts viz).*2 = length rows_demo.
Proof.
  assert (Hc : Forall consistent rows_demo) by (repeat constructor).
  split; [discriminate|]. split; [exact Hc|].
  destruct (description_split rows_demo) as (viz & Hv & _ & _ & _ & Hs);
    [discriminate | exact Hc |].
  exists viz. split; [exact Hv|]. split; [|exact Hs].
  injection Hv as <-. reflexivity.
Defined.

(** C7 as stated fails: when every record has a Korean description the
    split has the single row ("Yes", 1) and no row for "No". *)
Lemma description_split_single_row :
  Forall consistent rows_ai_only
  /\ exists viz,
       create_visualizations rows_ai_only = inr viz
       /\ description_counts viz = [(Some "Yes", 1)]
       /\ length (description_counts viz) <> 2.
Proof.
  split; [repeat constructor|].
  eexists. split; [reflexivity|]. split; [reflexivity|]. by vm_compute.
Qed.

(** ** The claims on the export *)

Lemma select_rows_cons sel name names :
  select_rows sel (name :: names)
  = match sel !! name with
    | Some e => e :: select_rows sel names
    | None => select_rows sel names
    end.
Proof. reflexivity. Qed.

Lemma select_rows_all sel names :
  (forall name, name ∈ names -> is_Some (sel !! name)) ->
  Forall2 (fun name e => sel !! name = Some e) names (select_rows sel names).
Proof.
  induction names as [|name names IH]; intros Hall; [constructor|].
  rewrite select_rows_cons.
  destruct (Hall name) as [e He]; [apply list_elem_of_here|]. rewrite He.
  constructor; [done|]. apply IH. intros name' Hin. apply Hall.
  by apply list_elem_of_further.
Qed.

Lemma download_selected_none_checked sel n_clicks values :
  checked_names values = [] -> download_selected sel n_clicks values = None.
Proof.
  intros Hn. unfold download_selected. rewrite Hn. by destruct n_clicks as [[|k]|].
Qed.

Lemma select_rows_empty names : select_rows ∅ names = [].
Proof.
  induction names as [|name names IH]; [done|].
  by rewrite select_rows_cons, lookup_empty.
Qed.

Lemma download_selected_no_selection n_clicks values :
  download_selected ∅ n_clicks values = None.
Proof.
  unfold download_selected. rewrite select_rows_empty.
  destruct n_clicks as [[|k]|]; [done| |done]. by destruct (checked_names values).
Qed.

Lemma download_selected_rows shown k values :
  checked_names values <> [] ->
  (forall name, name ∈ checked_names values -> name ∈ company_name <$> shown) ->
  exists ex,
    download_selected (dict_by_company_name shown) (Some (S k)) values = Some ex
    /\ sheet_columns ex = export_headers
    /\ length (sheet_rows ex) = length (checked_names values)
    /\ Forall2 (fun name row =>
                  exists e, e ∈ shown /\ company_name e = name
                            /\ row = export_fields e)
               (checked_names values) (sheet_rows ex).
Proof.
  intros Hne Hin. unfold download_selected.
  set (names := checked_names values) in *.
  assert (Hrows : Forall2 (fun name e => dict_by_company_name shown !! name = Some e)
                          names (select_rows (dict_by_company_name shown) names)).
  { apply select_rows_all. intros name Hn.
    by apply dict_by_company_name_is_Some, Hin. }
  destruct names as [|name names]; [done|].
  destruct (select_rows _ (name :: names)) as [|e es] eqn:Hsel;
    [by apply Forall2_length in Hrows|].
  eexists. split; [reflexivity|]. cbn [sheet_columns sheet_rows].
  split; [done|]. split.
  - rewrite length_fmap. symmetry. by eapply Forall2_length.
  - apply Forall2_fmap_r. eapply Forall2_impl; [exact Hrows|].
    intros name' e' [??]%dict_by_company_name_Some. by exists e'.
Qed.




Lemma download_selected_Some sel n_clicks values ex :
  download_selected sel n_clicks values = Some ex ->
  sheet_columns ex = export_headers
  /\ sheet_rows ex = export_fields <$> select_rows sel (checked_names values).
Proof.
  unfold download_selected. destruct n_clicks as [[|k]|]; [done| |done].
  destruct (checked_names values) as [|name names]; [done|].
  destruct (select_rows sel (name :: names)); [done|]. by intros [= <-].
Qed.

Lemma occurrences_cons {A} `{EqDecision A} (x y : A) xs :
  occurrences x (y :: xs)
  = (if bool_decide (y = x) then 1 else 0) + occurrences x xs.
Proof. unfold occurrences. cbn [List.filter]. by case_bool_decide. Qed.

(** The rows of an export that carry [name] in their first column: one
    copy of the record kept under the name for every time it is checked. *)
Lemma rows_for_name shown names name :
  List.filter (fun row => bool_decide (head row = Some name))
    (export_fields <$> select_rows (dict_by_company_name shown) names)
  = match dict_by_company_name shown !! name with
    | Some kept => replicate (occurrences name names) (export_fields kept)
    | None => []
    end.
Proof.
  induction names as [|name' names IH].
  { by destruct (dict_by_company_name shown !! name). }
  rewrite select_rows_cons, occurrences_cons.
  destruct (decide (name' = name)) as [->|Hne].
  - rewrite bool_decide_true by done.
    destruct (dict_by_company_name shown !! name) as [kept|] eqn:Hk; [|exact IH].
    apply dict_by_company_name_Some in Hk as [_ Hk].
    cbn [fmap list_fmap List.filter export_fields head].
    rewrite bool_decide_true by congruence. cbn [fmap] in IH. by rewrite IH.
  - rewrite bool_decide_false by done.
    destruct (dict_by_company_name shown !! name') as [e|] eqn:He; [|exact IH].
    apply dict_by_company_name_Some in He as [_ He].
    cbn [fmap list_fmap List.filter export_fields head].
    rewrite bool_decide_false by congruence. exact IH.
Qed.

(** C9, as amended.  After a click the slot of the chart is a dict keyed by
    company name: a name is bound to the last of the shown rows that carry
    it, so of several shown records with one company name only that one is
    kept; and the rows that a download has for a name are copies of the
    record kept, one for every box of that name that is checked, however
    many records carry the name. *)
Theorem last_selection_by_name viz key st :
  let by_name name := fun e => String.eqb (company_name e) name in
  let six_fields (e : exhibitor) :=
    [company_name e; booth_location e; pavilion e; description e;
     description_ko e; website e] in
  let rows_for name (ex : export) :=
    List.filter (fun row => bool_decide (head row = Some name)) (sheet_rows ex) in
  let copies_of_kept name values (shown : list exhibitor) :=
    match last (List.filter (by_name name) shown) with
    | Some kept =>
        replicate (occurrences name (checked_names values)) (six_fields kept)
    | None => []
    end in
  exists shown_c st_c shown_p st_p,
    display_category_click_data viz (Some key) st = (Some shown_c, st_c)
    /\ display_pavilion_click_data viz (Some key) st = (Some shown_p, st_p)
    /\ (forall name,
          selected_category_exhibitors st_c !! name
          = last (List.filter (by_name name) shown_c))
    /\ (forall name,
          selected_pavilion_exhibitors st_p !! name
          = last (List.filter (by_name name) shown_p))
    /\ (forall n_clicks values ex name,
          download_selected_category_data st_c n_clicks values = Some ex ->
          rows_for name ex = copies_of_kept name values shown_c)
    /\ (forall n_clicks values ex name,
          download_selected_pavilion_data st_p n_clicks values = Some ex ->
          rows_for name ex = copies_of_kept name values shown_p).
Proof.
  intros by_name six_fields rows_for copies_of_kept.
  eexists _, _, _, _. split; [reflexivity|]. split; [reflexivity|].
  cbn [selected_category_exhibitors selected_pavilion_exhibitors].
  split_and!.
  - intros name. apply dict_by_company_name_lookup.
  - intros name. apply dict_by_company_name_lookup.
  - intros n_clicks values ex name Hex.
    unfold download_selected_category_data in Hex.
    cbn [selected_category_exhibitors] in Hex.
    apply download_selected_Some in Hex as [_ Hrows].
    unfold rows_for, copies_of_kept. rewrite Hrows, rows_for_name.
    by rewrite dict_by_company_name_lookup.
  - intros n_clicks values ex name Hex.
    unfold download_selected_pavilion_data in Hex.
    cbn [selected_pavilion_exhibitors] in Hex.
    apply download_selected_Some in Hex as [_ Hrows].
    unfold rows_for, copies_of_kept. rewrite Hrows, rows_for_name.
    by rewrite dict_by_company_name_lookup.
Qed.

Lemma last_selection_by_name_witness :
  exists viz shown st',
    create_visualizations rows_demo = inr viz
    /\ display_category_click_data viz (Some "Q") initial_state
       = (Some shown, st')
    /\ company_name <$> shown = ["a"; "a"]
    /\ selected_category_exhibitors st' !! "a" = last shown
    /\ download_selected_category_data st' (Some 1) [["a"]]
       = Some {| sheet_columns := export_headers;
                 sheet_rows := [["a"; "B1"; "Q"; ""; "y"; ""]] |}
    /\ (forall ex,
          download_selected_category_data st' (Some 1) [["a"]] = Some ex ->
          List.filter (fun row => bool_decide (head row = Some "a")) (sheet_rows ex)
          = [["a"; "B1"; "Q"; ""; "y"; ""]]).
Proof.
  destruct (create_visualizations_nonempty rows_demo) as (ct & _ & Hv);
    [discriminate|].
  match type of Hv with
  | _ = inr ?v =>
      destruct (last_selection_by_name v "Q" initial_state)
        as (shown & st' & _ & _ & Hd & _ & Hl & _ & Hrows & _)
  end.
  eexists. exists shown, st'. split; [exact Hv|]. split; [exact Hd|].
  injection Hd as <- <-. split; [reflexivity|].
  split; [exact (Hl "a")|]. split; [by vm_compute|].
  intros ex Hex. exact (Hrows (Some 1) [["a"]] ex "a" Hex).
Defined.

(** C9 as stated fails: two shown records carry the company name "a", each
    has its box, and with both boxes checked the download has two rows for
    "a", both holding the record kept. *)
Lemma two_ticks_two_rows :
  exists viz shown st' ex,
    create_visualizations rows_demo = inr viz
    /\ display_category_click_data viz (Some "Q") initial_state
       = (Some shown, st')
    /\ company_name <$> shown = ["a"; "a"]
    /\ pavilion <$> shown = ["None"; "Q"]
    /\ download_selected_category_data st' (Some 1) [["a"]; ["a"]] = Some ex
    /\ List.filter (fun row => bool_decide (head row = Some "a")) (sheet_rows ex)
       = [["a"; "B1"; "Q"; ""; "y"; ""]; ["a"; "B1"; "Q"; ""; "y"; ""]]
    /\ ~ length (List.filter (fun row => bool_decide (head row = Some "a"))
                            (sheet_rows ex)) <= 1.
Proof.
  destruct (create_visualizations_nonempty rows_demo) as (ct & _ & Hv);
    [discriminate|].
  eexists _, _, _, _. split; [exact Hv|]. split; [reflexivity|].
  split; [reflexivity|]. split; [reflexivity|]. split; [by vm_compute|].
  split; [by vm_compute|]. vm_compute. lia.
Qed.

(** * Further properties of the code *)

(** ** The normalizer on a whole array *)

Lemma process_data_cons raw data :
  process_data (raw :: data)
  = match process_exhibitor raw with
    | inl e => inl e
    | inr it => match process_data data with
                | inl e => inl e
                | inr items => inr (it :: items)
                end
    end.
Proof.
  cbn [process_data]. destruct (process_exhibitor raw); [done|]. cbn [bind].
  by destruct (process_data data).
Qed.

(** X1.  [process_data] returns a list exactly when every record of the
    array is normalized, and the list then holds the items of the records
    in their order; it raises [e] exactly when the first record that is not
    normalized raises [e], whatever follows that record. *)
Theorem process_data_all_or_nothing data :
  (forall items,
      process_data data = inr items
      <-> Forall2 (fun raw it => process_exhibitor raw = inr it) data items)
  /\ (forall e,
         process_data data = inl e
         <-> exists good bad rest,
               data = good ++ bad :: rest
               /\ Forall (fun raw => exists it, process_exhibitor raw = inr it) good
               /\ process_exhibitor bad = inl e).
Proof.
  induction data as [|raw data [IHok IHerr]].
  - split.
    + intros items. split.
      * intros [= <-]. constructor.
      * intros H. inversion H. done.
    + intros e. split; [done|]. intros (good & bad & rest & Heq & _).
      by destruct good.
  - split.
    + intros items. rewrite process_data_cons. split.
      * destruct (process_exhibitor raw) as [e|it] eqn:Hr; [done|].
        destruct (process_data data) as [e|its] eqn:Hd; [done|].
        intros [= <-]. constructor; [done|]. by apply IHok.
      * intros H. inversion H as [|? it ? its Hr Hits]; subst.
        rewrite Hr. apply IHok in Hits. by rewrite Hits.
    + intros e. rewrite process_data_cons. split.
      * destruct (process_exhibitor raw) as [e'|it] eqn:Hr.
        { intros [= ->]. exists [], raw, data. by repeat split. }
        destruct (process_data data) as [e'|its] eqn:Hd; [|done].
        intros [= ->]. destruct (proj1 (IHerr e) eq_refl)
          as (good & bad & rest & -> & Hgood & Hbad).
        exists (raw :: good), bad, rest. split; [done|]. split; [|done].
        constructor; [by exists it | done].
      * intros (good & bad & rest & Heq & Hgood & Hbad).
        destruct good as [|g good]; simplify_eq/=.
        { by rewrite Hbad. }
        apply Forall_cons in Hgood as [[it Hit] Hgood]. rewrite Hit.
        assert (Hd : process_data (good ++ bad :: rest) = inl e).
        { apply IHerr. by exists good, bad, rest. }
        by rewrite Hd.
Qed.

(** ** The website of a record *)

(** X2.  The website is the url of the first contact whose type is
    "website" in any mix of capitals and small letters; the contacts after
    it are not looked at, so they may be anything; and when no contact has
    that type the website is the empty string. *)
Theorem first_website_first_match pre :
  Forall (fun c => exists ty, py_get c "type" (JStr "") = inr (JStr ty)
                              /\ lower ty <> "website") pre ->
  first_website pre = inr (JStr "")
  /\ forall c ty post,
       py_get c "type" (JStr "") = inr (JStr ty) ->
       lower ty = "website" ->
       first_website (pre ++ c :: post) = py_getitem c "url".
Proof.
  induction 1 as [|c' pre (ty' & Hty' & Hne) Hpre [IH1 IH2]].
  - split; [done|]. intros c ty post Hty Hl. cbn [app first_website].
    rewrite Hty. cbn [bind py_lower ret]. by rewrite Hl.
  - assert (Hno : String.eqb (lower ty') "website" = false)
      by by apply String.eqb_neq.
    split.
    + cbn [first_website]. rewrite Hty'. cbn [bind py_lower ret]. by rewrite Hno.
    + intros c ty post Hty Hl. cbn [app first_website].
      rewrite Hty'. cbn [bind py_lower ret]. rewrite Hno. by eapply IH2.
Qed.

Lemma first_website_first_match_witness :
  process_data [raw_contacts_sample]
  = inr [{| i_company_name := JStr "Acme";
            i_booth_location := JStr "Unknown";
            i_pavilion := JStr "None";
            i_categories_count := 0;
            i_has_description := 0;
            i_social_media_count := 0;
            i_description := JStr "";
            i_description_ko := JStr "";
            i_social_media := JArr [];
            i_contact_details :=
              JArr [JObj [("type", JStr "Email"); ("url", JStr "m")];
                    JObj [("url", JStr "no type")];
                    JObj [("type", JStr "WEBSITE"); ("url", JStr "http://a")];
                    JNum 7];
            i_website := JStr "http://a";
            i_categories := JArr [] |}]
  /\ first_website [JObj [("type", JStr "Email"); ("url", JStr "m")];
                    JObj [("url", JStr "no type")];
                    JObj [("type", JStr "WEBSITE"); ("url", JStr "http://a")];
                    JNum 7]
     = inr (JStr "http://a").
Proof.
  split; [reflexivity|].
  assert (Hpre : Forall (fun c => exists ty, py_get c "type" (JStr "") = inr (JStr ty)
                                             /\ lower ty <> "website")
                   [JObj [("type", JStr "Email"); ("url", JStr "m")];
                    JObj [("url", JStr "no type")]]).
  { repeat constructor; eexists; (split; [reflexivity | discriminate]). }
  destruct (first_website_first_match _ Hpre) as [_ Hm].
  exact (Hm (JObj [("type", JStr "WEBSITE"); ("url", JStr "http://a")])
            "WEBSITE" [JNum 7] eq_refl eq_refl).
Defined.

(** X3.  A default stands in for an absent key only: the value of a key
    that is present goes into the item as it is, [null] included, and
    has_description is 1 exactly when the value under description_ko is
    truthy. *)
Theorem process_exhibitor_present_keys fields it :
  process_exhibitor (JObj fields) = inr it ->
  (forall v, dict_lookup "company_name" fields = Some v -> i_company_name it = v)
  /\ (forall v, dict_lookup "booth_location" fields = Some v -> i_booth_location it = v)
  /\ (forall v, dict_lookup "pavilion" fields = Some v -> i_pavilion it = v)
  /\ (forall v, dict_lookup "description" fields = Some v -> i_description it = v)
  /\ (forall v, dict_lookup "description_ko" fields = Some v ->
                i_description_ko it = v
                /\ (i_has_description it = 1%Z <-> py_truthy v = true))
  /\ (dict_lookup "description_ko" fields = None ->
      i_description_ko it = JStr "" /\ i_has_description it = 0%Z)
  /\ (forall v, dict_lookup "categories" fields = Some v ->
                i_categories it = v /\ py_len v = inr (i_categories_count it))
  /\ (forall v, dict_lookup "social_media" fields = Some v ->
                i_social_media it = v /\ py_len v = inr (i_social_media_count it)).
Proof.
  intros Hp. destruct (process_exhibitor_inv _ _ Hp) as (w & n & m & Hw & Hc & Hs).
  rewrite (process_exhibitor_dict _ _ _ _ Hw Hc Hs) in Hp. injection Hp as <-.
  cbn. split_and!; try (by intros v ->).
  - intros v ->. cbn. split; [done|]. by destruct (py_truthy v).
  - by intros ->.
  - intros v Hv. rewrite Hv in Hc. by rewrite Hv.
  - intros v Hv. rewrite Hv in Hs. by rewrite Hv.
Qed.

Lemma process_exhibitor_present_keys_witness :
  exists it,
    process_exhibitor (JObj [("pavilion", JNull); ("description_ko", JStr "")])
    = inr it
    /\ i_pavilion it = JNull
    /\ i_has_description it = 0%Z.
Proof.
  eexists. split; [reflexivity|].
  destruct (process_exhibitor_present_keys
              [("pavilion", JNull); ("description_ko", JStr "")] _ eq_refl)
    as (_ & _ & Hp & _).
  split; [exact (Hp JNull eq_refl) | reflexivity].
Defined.

(** X4.  Every record that reaches the aggregator carries the fields the
    normalizer derived: has_description tells whether description_ko is
    non-empty, categories_count and social_media_count are the lengths of
    the two lists, and website is what the contact details give. *)
Theorem normalizer_derived_fields data items rows :
  process_data data = inr items ->
  mapM normalized items = Some rows ->
  Forall (fun e => consistent e /\ website_extracted e) rows.
Proof.
  intros Hp Hn. apply process_data_all_or_nothing in Hp.
  apply mapM_Some in Hn. revert rows Hn.
  induction Hp as [|raw it data items Hr Hp IH]; intros rows Hn.
  - inversion Hn. constructor.
  - inversion Hn as [|? e ? es He Hes]; subst. constructor; [|by apply IH].
    split; [by eapply normalized_consistent|].
    destruct raw as [| | | | |fields];
      try (unfold process_exhibitor, website_url in Hr; simpl in Hr; discriminate).
    destruct (process_exhibitor_inv _ _ Hr) as (w & n & m & Hw & Hc & Hs).
    rewrite (process_exhibitor_dict _ _ _ _ Hw Hc Hs) in Hr. injection Hr as <-.
    unfold normalized in He. cbn in He.
    repeat match type of He with
           | context [mbind _ ?o] =>
               let E := fresh "E" in destruct o eqn:E; cbn in He; [|discriminate]
           end.
    injection He as <-. unfold website_extracted. cbn.
    unfold website_url in Hw. rewrite py_get_dict in Hw. cbn [bind ret] in Hw.
    repeat match goal with
           | H : as_list _ = Some _ |- _ => apply as_list_Some in H
           | H : as_str _ = Some _ |- _ => apply as_str_Some in H
           end.
    match goal with
    | H : default (JArr []) (dict_lookup "contact_details" fields) = JArr _ |- _ =>
        rewrite H in Hw
    end.
    cbn in Hw. by subst w.
Qed.

Lemma normalizer_derived_fields_witness :
  exists items rows,
    process_data [raw_contacts_sample; JObj []] = inr items
    /\ mapM normalized items = Some rows
    /\ Forall (fun e => consistent e /\ website_extracted e) rows
    /\ website <$> rows = ["http://a"; ""].
Proof.
  eexists _, _. split; [reflexivity|]. split; [reflexivity|].
  split; [|reflexivity].
  exact (normalizer_derived_fields [raw_contacts_sample; JObj []] _ _ eq_refl eq_refl).
Defined.

(** ** The table a click renders *)

Lemma website_scans_agree fallback contacts w :
  first_website contacts = inr w ->
  exists b, any_website contacts = inr b
            /\ (b = true -> next_website fallback contacts = inr w)
            /\ (b = false -> w = JStr "").
Proof.
  induction contacts as [|c contacts IH]; cbn [first_website any_website next_website].
  - intros [= <-]. by exists false.
  - destruct (py_get c "type" (JStr "")) as [e|ty]; [done|]. cbn [bind].
    destruct (py_lower ty) as [e|l]; [done|]. cbn [bind].
    destruct (String.eqb l "website"); [|exact IH].
    intros Hu. by exists true.
Qed.

Lemma homepage_cell_website e :
  website_extracted e ->
  exists cell, homepage_cell e = inr cell
               /\ (cell = None \/ cell = Some (JStr (website e)))
               /\ (cell = None -> website e = "").
Proof.
  intros Hw. unfold homepage_cell.
  destruct (website_scans_agree (JStr "#") _ _ Hw) as (b & -> & Ht & Hf).
  cbn [bind]. destruct b.
  - rewrite Ht by done. cbn. eexists. split; [done|]. split; [by right | done].
  - exists None. split; [done|]. split; [by left|]. intros _.
    by injection (Hf eq_refl).
Qed.

(** X5.  For records whose website is the one their contact details give
    (as the normalizer leaves them), rendering the table does not raise; it
    has one row per record, in order, whose checkbox carries the company
    name, whose description is the shortened text of the language shown,
    and whose Homepage cell is either empty, and then the record has no
    website, or a link to the website of the record. *)
Theorem render_rows_of_normalized current_language i rows :
  Forall website_extracted rows ->
  exists trs,
    render_rows current_language i rows = inr trs
    /\ row_checkbox <$> trs = company_name <$> rows
    /\ Forall2 (fun e row =>
                  row_company_name row = company_name e
                  /\ row_booth_location row = booth_location e
                  /\ row_description row
                     = truncate_description (description_field current_language e)
                  /\ (row_homepage row = None
                      \/ row_homepage row = Some (JStr (website e)))
                  /\ (row_homepage row = None -> website e = ""))
               rows trs.
Proof.
  intros Hrows. revert i.
  induction Hrows as [|e rows He Hrows IH]; intros i.
  - exists []. repeat split. constructor.
  - destruct (homepage_cell_website e He) as (cell & Hcell & Hc1 & Hc2).
    destruct (IH (S i)) as (trs & Htrs & Hnames & Hall).
    cbn [render_rows]. unfold render_row. rewrite Hcell. cbn [bind ret].
    rewrite Htrs. cbn [bind ret]. eexists. split; [reflexivity|].
    split; [cbn; by rewrite Hnames|]. constructor; [|done]. by cbn.
Qed.

Lemma render_rows_of_normalized_witness :
  exists items rows trs,
    process_data [raw_contacts_sample; JObj []] = inr items
    /\ mapM normalized items = Some rows
    /\ Forall website_extracted rows
    /\ render_rows "ko" 0 rows = inr trs
    /\ row_homepage <$> trs = [Some (JStr "http://a"); None].
Proof.
  assert (Hw : Forall website_extracted
                 (default [] (mapM normalized
                    (match process_data [raw_contacts_sample; JObj []] with
                     | inr items => items
                     | inl _ => []
                     end)))).
  { repeat constructor. }
  destruct (render_rows_of_normalized "ko" 0 _ Hw) as (trs & Htrs & _).
  eexists _, _, trs. split; [reflexivity|]. split; [reflexivity|].
  split; [exact Hw|]. split; [exact Htrs|].
  cbn in Htrs. injection Htrs as <-. reflexivity.
Defined.

(** ** Shortening a description *)

Lemma code_points_cons c rest :
  code_points (String c rest)
  = match rest, code_points rest with
    | String c' _, p :: ps =>
        if is_continuation c' then String c p :: ps
        else String c EmptyString :: p :: ps
    | _, ps => String c EmptyString :: ps
    end.
Proof.
  destruct rest as [|c' rest']; [done|].
  change (code_points (String c (String c' rest')))
    with (match code_points (String c' rest') with
          | p :: ps' =>
              if is_continuation c' then String c p :: ps'
              else String c EmptyString :: code_points (String c' rest')
          | [] => String c EmptyString :: code_points (String c' rest')
          end).
  destruct (code_points (String c' rest')); [done|]. by destruct (is_continuation c').
Qed.

Lemma code_points_nil s : code_points s = [] -> s = "".
Proof.
  destruct s as [|c rest]; [done|]. rewrite code_points_cons.
  destruct rest as [|c' rest']; [done|].
  destruct (code_points (String c' rest')) as [|p ps]; [done|].
  by destruct (is_continuation c').
Qed.

(** A byte, the continuation bytes after it, and a string that starts a new
    code point. *)
Lemma code_points_unit c t s :
  all_continuation t = true -> starts_with_continuation s = false ->
  code_points (String c t +:+ s) = String c t :: code_points s.
Proof.
  revert c. induction t as [|d t IH]; intros c Ht Hs.
  - change (String c "" +:+ s) with (String c s). rewrite code_points_cons.
    destruct s as [|c' s']; [done|]. cbn in Hs.
    destruct (code_points (String c' s')) as [|p ps] eqn:Hps.
    + by apply code_points_nil in Hps.
    + by rewrite Hs.
  - cbn in Ht. apply andb_true_iff in Ht as [Hd Ht].
    change (String c (String d t) +:+ s) with (String c (String d (t +:+ s))).
    pose proof (IH d Ht Hs) as Hr.
    change (String d t +:+ s) with (String d (t +:+ s)) in Hr.
    rewrite code_points_cons, Hr. by rewrite Hd.
Qed.

Lemma code_points_shape s :
  match code_points s with
  | [] => s = ""
  | p :: ps =>
      is_unit p /\ Forall is_lead ps
      /\ starts_with_continuation p = starts_with_continuation s
  end.
Proof.
  induction s as [|c rest IH]; [done|]. rewrite code_points_cons.
  destruct rest as [|c' rest'].
  { cbn. split; [by exists c, "" | done]. }
  destruct (code_points (String c' rest')) as [|p ps]; [done|].
  destruct IH as ((d & t & -> & Ht) & Hps & Hstart). cbn in Hstart.
  destruct (is_continuation c') eqn:Hc'.
  - split; [|done]. exists c, (String d t). split; [done|]. cbn.
    by rewrite Hstart, Ht.
  - split; [by exists c, ""|]. split; [|done]. constructor; [|done].
    split; [by exists d, t|]. cbn. congruence.
Qed.

Lemma join_code_points s : join (code_points s) = s.
Proof.
  induction s as [|c rest IH]; [done|]. rewrite code_points_cons.
  destruct rest as [|c' rest']; [done|].
  destruct (code_points (String c' rest')) as [|p ps]; [done|].
  change (join (p :: ps)) with (p +:+ join ps) in IH.
  destruct (is_continuation c').
  - change (join (String c p :: ps)) with (String c (p +:+ join ps)).
    by rewrite IH.
  - change (join (String c "" :: p :: ps)) with (String c (p +:+ join ps)).
    by rewrite IH.
Qed.

Lemma string_app_assoc (a b c : string) : (a +:+ b) +:+ c = a +:+ (b +:+ c).
Proof.
  induction a as [|x a' IH]; [done|].
  change (String x ((a' +:+ b) +:+ c) = String x (a' +:+ b +:+ c)).
  by rewrite IH.
Qed.

Lemma string_app_nil_r (a : string) : a +:+ "" = a.
Proof.
  induction a as [|x a' IH]; [done|].
  change (String x (a' +:+ "") = String x a'). by rewrite IH.
Qed.

Lemma join_app l1 l2 : join (l1 ++ l2) = join l1 +:+ join l2.
Proof.
  induction l1 as [|p l1 IH]; [done|].
  change (join ((p :: l1) ++ l2)) with (p +:+ join (l1 ++ l2)).
  change (join (p :: l1)) with (p +:+ join l1).
  by rewrite IH, string_app_assoc.
Qed.

Lemma code_points_leads ps s :
  Forall is_lead ps -> starts_with_continuation s = false ->
  code_points (join ps +:+ s) = ps ++ code_points s
  /\ starts_with_continuation (join ps +:+ s) = false.
Proof.
  induction 1 as [|p ps [(c & t & -> & Ht) Hlead] Hps IH]; intros Hs; [done|].
  destruct (IH Hs) as [IHc IHs].
  change (join (String c t :: ps)) with (String c t +:+ join ps).
  rewrite string_app_assoc.
  split; [|done]. rewrite code_points_unit by done. by rewrite IHc.
Qed.

Lemma Forall_is_lead_take n ps : Forall is_lead ps -> Forall is_lead (take n ps).
Proof. apply Forall_take. Qed.

(** X6.  A description of at most 200 characters is shown as it is; a
    longer one is cut to its first 200 characters followed by "...", so a
    cell never shows more than 203 characters. *)
Theorem truncate_description_bound text :
  length (code_points (truncate_description text)) <= 203
  /\ (length (code_points text) <= 200 -> truncate_description text = text)
  /\ (200 < length (code_points text) ->
      exists prefix rest,
        text = prefix +:+ rest
        /\ code_points prefix = take 200 (code_points text)
        /\ truncate_description text = prefix +:+ "..."
        /\ length (code_points (truncate_description text)) = 203).
Proof.
  assert (Hlong : 200 < length (code_points text) ->
            exists prefix rest,
              text = prefix +:+ rest
              /\ code_points prefix = take 200 (code_points text)
              /\ truncate_description text = prefix +:+ "..."
              /\ length (code_points (truncate_description text)) = 203).
  { intros Hlen. unfold truncate_description.
    assert (Hne : String.eqb text "" = false).
    { apply String.eqb_neq. intros ->. cbn in Hlen. lia. }
    rewrite Hne. rewrite (proj2 (Nat.ltb_lt _ _)) by done. cbn [negb andb].
    pose proof (code_points_shape text) as Hshape.
    destruct (code_points text) as [|p ps] eqn:Hcp; [cbn in Hlen; lia|].
    destruct Hshape as ((c & t & -> & Ht) & Hps & _).
    cbn [length] in Hlen. change (take 200 (String c t :: ps))
      with (String c t :: take 199 ps).
    exists (join (String c t :: take 199 ps)), (join (drop 199 ps)).
    assert (Hpre : forall s, starts_with_continuation s = false ->
               code_points (join (String c t :: take 199 ps) +:+ s)
               = String c t :: take 199 ps ++ code_points s).
    { intros s Hs.
      change (join (String c t :: take 199 ps))
        with (String c t +:+ join (take 199 ps)).
      rewrite string_app_assoc.
      destruct (code_points_leads (take 199 ps) s) as [Hc Hst];
        [by apply Forall_is_lead_take | done |].
      rewrite code_points_unit by done. by rewrite Hc. }
    split_and!.
    - rewrite <- join_app. change (String c t :: take 199 ps)
        with (take 200 (String c t :: ps)).
      change (drop 199 ps) with (drop 200 (String c t :: ps)).
      by rewrite take_drop, <- Hcp, join_code_points.
    - specialize (Hpre "" eq_refl). cbn [code_points] in Hpre.
      rewrite app_nil_r in Hpre. by rewrite string_app_nil_r in Hpre.
    - done.
    - rewrite (Hpre "..." eq_refl). cbn [length]. rewrite length_app, length_take.
      replace (length (code_points "...")) with 3 by reflexivity. lia. }
  split_and!; [|  |exact Hlong].
  - destruct (decide (200 < length (code_points text))) as [Hl|Hs].
    + destruct (Hlong Hl) as (_ & _ & _ & _ & _ & ->). done.
    + unfold truncate_description.
      rewrite (proj2 (Nat.ltb_ge _ _)) by lia. rewrite andb_false_r. lia.
  - intros Hs. unfold truncate_description.
    rewrite (proj2 (Nat.ltb_ge _ _)) by lia. by rewrite andb_false_r.
Qed.

Lemma truncate_description_bound_witness :
  length (code_points long_description) = 250
  /\ length (code_points (truncate_description long_description)) = 203
  /\ truncate_description "short" = "short".
Proof.
  destruct (truncate_description_bound long_description) as (_ & _ & Hlong).
  split; [by vm_compute|]. split; [|reflexivity].
  destruct Hlong as (prefix & rest & _ & _ & _ & Hlen); [|exact Hlen].
  vm_compute. lia.
Defined.

(** ** The language buttons *)

(** X7.  A toggle callback stores "ko" when the Korean button fired it and
    "en" in every other case, and whichever button fired it the style it
    returns for the Korean button is the green one and the style for the
    English button the grey one; the click callbacks, which render the same
    two buttons, give the green style to the button of the language shown,
    so for English the two callbacks disagree. *)
Theorem toggle_language_styles triggered_id :
  let bg := style_get "backgroundColor" in
  (forall toggle button,
      (toggle = toggle_language_category /\ button = "ko-button-category")
      \/ (toggle = toggle_language_pavilion /\ button = "ko-button-pavilion") ->
      ((toggle triggered_id).1.1 = "ko" <-> triggered_id = Some button)
      /\ ((toggle triggered_id).1.1 = "en" <-> triggered_id <> Some button)
      /\ bg (toggle triggered_id).1.2 = Some "#4CAF50"
      /\ bg (toggle triggered_id).2 = Some "#ccc")
  /\ (forall current_language,
         (bg (click_ko_style current_language) = Some "#4CAF50"
          <-> current_language = "ko")
         /\ (bg (click_en_style current_language) = Some "#4CAF50"
             <-> current_language = "en"))
  /\ click_ko_style "ko" = ko_style /\ click_en_style "ko" = en_style
  /\ click_ko_style "en" = ko_inactive_style
  /\ click_en_style "en" = en_inactive_style.
Proof.
  intros bg. split_and!; try reflexivity.
  - intros toggle button [[-> ->]|[-> ->]];
      unfold toggle_language_category, toggle_language_pavilion;
      case_bool_decide; cbn; split_and!; try done; split; done.
  - intros lang. unfold bg, click_ko_style, click_en_style. cbn.
    split.
    + destruct (String.eqb_spec lang "ko"); split; done.
    + destruct (String.eqb_spec lang "en"); split; done.
Qed.

(** ** The tables of the aggregator *)

Lemma column_rows {A} rows name (field : exhibitor -> A) :
  rows <> [] -> name ∈ item_keys ->
  column (pd_DataFrame rows) name field = inr (field <$> rows).
Proof. destruct rows; [done|]. intros _. apply column_nonempty. Qed.

Lemma length_keys_size (l : list (string * nat)) :
  NoDup l.*1 -> length l = size (list_to_set l.*1 : gset string).
Proof. intros Hl. by rewrite size_list_to_set, length_fmap. Qed.

Lemma Counter_keys_set (xs : list string) :
  (list_to_set (Counter xs).*1 : gset string) = list_to_set xs.
Proof.
  apply set_eq. intros x. rewrite !elem_of_list_to_set, list_elem_of_fmap. split.
  - intros ([y n] & -> & Hin). by apply elem_of_Counter in Hin as [? _].
  - intros Hin. exists (x, occurrences x xs). split; [done|].
    by apply elem_of_Counter.
Qed.

Lemma length_Counter (xs : list string) :
  length (Counter xs) = size (list_to_set xs : gset string).
Proof. by rewrite length_keys_size, Counter_keys_set by apply Counter_NoDup. Qed.

Lemma length_set_others_count v rows :
  length (set_others_count v rows) = length rows.
Proof. apply length_fmap. Qed.

Lemma kept_pavilions_size (pavs : list string) :
  let unique : gset string := list_to_set pavs in
  length (List.filter (fun r : string * nat => negb (String.eqb r.1 "None"))
                      (value_counts pavs))
  = size unique - (if bool_decide ("None" ∈ unique) then 1 else 0).
Proof.
  intros unique.
  set (kept := List.filter _ _).
  assert (Hnd : NoDup kept.*1).
  { eapply sublist_NoDup; [apply (value_counts_NoDup pavs)|].
    apply fmap_sublist, List_filter_sublist. }
  assert (Hset : (list_to_set kept.*1 : gset string) = unique ∖ {["None"]}).
  { apply set_eq. intros x.
    rewrite elem_of_difference, !elem_of_list_to_set, list_elem_of_fmap,
      elem_of_singleton.
    split.
    - intros ([y n] & -> & [Hin Hne]%elem_of_List_filter).
      apply elem_of_value_counts in Hin as [Hin _]. cbn in *.
      split; [by apply elem_of_list_to_set|].
      by apply String.eqb_neq, negb_true_iff.
    - intros [Hin%elem_of_list_to_set Hne].
      exists (x, occurrences x pavs). split; [done|].
      apply elem_of_List_filter. split; [by apply elem_of_value_counts|].
      cbn. by apply negb_true_iff, String.eqb_neq. }
  rewrite length_keys_size, Hset by done. case_bool_decide as Hin.
  - rewrite size_difference by set_solver. by rewrite size_singleton.
  - rewrite difference_disjoint_L by set_solver. lia.
Qed.

Lemma pavilions_without_none_size (pavs : list string) :
  let unique : gset string := list_to_set pavs in
  size unique - (if bool_decide ("None" ∈ unique) then 1 else 0)
  = size (list_to_set (List.filter (fun p => negb (String.eqb p "None")) pavs)
          : gset string).
Proof.
  intros unique.
  assert (Hset : (list_to_set (List.filter (fun p => negb (String.eqb p "None")) pavs)
                  : gset string) = unique ∖ {["None"]}).
  { apply set_eq. intros x. unfold unique.
    rewrite elem_of_difference, !elem_of_list_to_set, elem_of_List_filter,
      elem_of_singleton, negb_true_iff, String.eqb_neq. done. }
  rewrite Hset. case_bool_decide as Hin.
  - rewrite size_difference by set_solver. by rewrite size_singleton.
  - rewrite difference_disjoint_L by set_solver. lia.
Qed.

(** X8.  The three numbers of the overview are the number of records, of
    distinct category names and of distinct pavilions other than "None";
    the category table has the 30 most frequent categories, or all of them
    when there are fewer, and one more row named "Others" at its end; the
    pavilion table has 15 pavilions, or all of them when there are fewer. *)
Theorem overview_and_table_sizes rows :
  rows <> [] ->
  exists viz n_categories n_pavilions,
    create_visualizations rows = inr viz
    /\ total_exhibitors viz = length rows
    /\ unique_categories viz = inr n_categories
    /\ n_categories
       = size (list_to_set (concat (categories <$> rows)) : gset string)
    /\ unique_pavilions viz = inr n_pavilions
    /\ n_pavilions
       = size (list_to_set (List.filter (fun p => negb (String.eqb p "None"))
                                        (pavilion <$> rows)) : gset string)
    /\ length (top_categories viz) = n_categories `min` 30 + 1
    /\ size (top_30_category_names viz) = n_categories `min` 30
    /\ (exists n, last (top_categories viz) = Some ("Others", n))
    /\ length (pavilion_counts viz) = n_pavilions `min` 15.
Proof.
  intros Hne. destruct (create_visualizations_nonempty rows Hne) as (ct & Hct & Hviz).
  rewrite category_counting_nonempty in Hct by done. cbv zeta in Hct.
  injection Hct as <-. eexists _, _, _. split; [exact Hviz|].
  unfold total_exhibitors, unique_categories, unique_pavilions.
  cbn [df top_categories top_30_category_names pavilion_counts
       cv_top_categories cv_top_30_category_names].
  rewrite !column_rows by (done || (apply list_elem_of_In; simpl; tauto)).
  cbn [bind ret]. set (all := concat (categories <$> rows)).
  assert (Htop : length (most_common 30 (Counter all))
                 = size (list_to_set all : gset string) `min` 30).
  { unfold most_common. rewrite length_take, length_stable_sort, length_Counter. lia. }
  split_and!; try reflexivity.
  - apply pavilions_without_none_size.
  - destruct (counter_get _ _);
      rewrite ?length_set_others_count, length_app, Htop; reflexivity.
  - rewrite size_list_to_set by apply most_common_NoDup.
    by rewrite length_fmap.
  - destruct (counter_get _ _) as [ai|].
    + exists ai. rewrite set_others_count_app. apply last_snoc.
    + eexists. apply last_snoc.
  - rewrite length_take. unfold sort_values_count_desc.
    rewrite length_stable_sort, kept_pavilions_size,
      pavilions_without_none_size. lia.
Qed.

Lemma overview_and_table_sizes_witness :
  rows_demo <> []
  /\ exists viz,
       create_visualizations rows_demo = inr viz
       /\ total_exhibitors viz = 4
       /\ unique_categories viz = inr 3
       /\ unique_pavilions viz = inr 2
       /\ length (top_categories viz) = 4
       /\ length (pavilion_counts viz) = 2.
Proof.
  split; [discriminate|].
  destruct (overview_and_table_sizes rows_demo)
    as (viz & nc & np & Hv & Ht & Hc & Hnc & Hp & Hnp & Hl & _ & _ & Hlp);
    [discriminate|].
  assert (nc = 3) as -> by (subst nc; by vm_compute).
  assert (np = 2) as -> by (subst np; by vm_compute).
  exists viz. split; [exact Hv|]. split; [exact Ht|]. split; [exact Hc|].
  split; [exact Hp|]. split; [exact Hl | exact Hlp].
Defined.

Lemma elem_of_set_others_count_inv v rows key n :
  (key, n) ∈ set_others_count v rows ->
  (key <> "Others" /\ (key, n) ∈ rows)
  \/ (key = "Others" /\ n = v /\ key ∈ rows.*1).
Proof.
  unfold set_others_count. intros ([k m] & Heq & Hin)%list_elem_of_fmap.
  cbn in Heq. destruct (String.eqb_spec k "Others") as [->|Hne].
  - injection Heq as -> ->. right. split; [done|]. split; [done|].
    apply list_elem_of_fmap. by exists ("Others", m).
  - injection Heq as -> ->. by left.
Qed.

(** X9.  The rows of the category table before "Others" are ranked: no
    category twice, counts descending, each count the number of times the
    category occurs in the category lists of all records, and a category
    that is left out occurs no more often than any category listed, of
    which there are then 30.  The table shows these counts for every
    category but one named "Others". *)
Theorem top_30_ranking rows :
  rows <> [] ->
  let all := concat (categories <$> rows) in
  exists viz ct,
    create_visualizations rows = inr viz
    /\ category_counting (pd_DataFrame rows) = inr ct
    /\ top_30_category_names viz = list_to_set (cv_top_30_categories ct).*1
    /\ NoDup (cv_top_30_categories ct).*1
    /\ StronglySorted (fun a b => b.2 <= a.2) (cv_top_30_categories ct)
    /\ (forall c n, (c, n) ∈ cv_top_30_categories ct ->
                    c ∈ all /\ n = occurrences c all /\ 0 < n)
    /\ (forall c, c ∈ all -> c ∉ top_30_category_names viz ->
                  length (cv_top_30_categories ct) = 30
                  /\ forall c' n, (c', n) ∈ cv_top_30_categories ct ->
                                  occurrences c all <= n)
    /\ (forall c n, c <> "Others" ->
                    (c, n) ∈ top_categories viz <-> (c, n) ∈ cv_top_30_categories ct).
Proof.
  intros Hne all. destruct (create_visualizations_nonempty rows Hne) as (ct & Hct & Hviz).
  eexists _, ct. split; [exact Hviz|]. split; [exact Hct|].
  rewrite category_counting_nonempty in Hct by done. cbv zeta in Hct.
  injection Hct as <-.
  cbn [top_categories top_30_category_names cv_top_categories
       cv_top_30_category_names cv_top_30_categories]. fold all.
  set (ranked := stable_sort by_count_desc (Counter all)).
  assert (Hsorted : StronglySorted (le_rel by_count_desc) ranked).
  { apply stable_sort_strongly;
      [apply by_count_desc_total | apply by_count_desc_trans]. }
  assert (Hmem : forall c n, (c, n) ∈ ranked <-> c ∈ all /\ n = occurrences c all).
  { intros c n. unfold ranked. by rewrite elem_of_stable_sort, elem_of_Counter. }
  split_and!.
  - reflexivity.
  - apply most_common_NoDup.
  - apply StronglySorted_take. eapply StronglySorted_weaken; [|exact Hsorted].
    intros a b. unfold le_rel, by_count_desc. by rewrite Nat.leb_le.
  - intros c n Hin. apply elem_of_most_common in Hin as [Hin ->].
    split_and!; [done..|]. by apply occurrences_pos.
  - intros c Hin Hout.
    assert (Hr : (c, occurrences c all) ∈ ranked) by by apply Hmem.
    rewrite <- (take_drop 30 ranked) in Hr. apply elem_of_app in Hr as [Hr|Hr].
    { exfalso. apply Hout. apply elem_of_list_to_set, list_elem_of_fmap.
      by exists (c, occurrences c all). }
    assert (Hlen : 30 < length ranked).
    { destruct (decide (30 < length ranked)) as [|Hge]; [done|].
      rewrite drop_ge in Hr by lia. by apply elem_of_nil in Hr. }
    split; [unfold most_common; fold ranked; rewrite length_take; lia|].
    intros c' n Hc'.
    pose proof (StronglySorted_take_drop _ 30 ranked _ _ Hsorted Hc' Hr) as Hle.
    unfold le_rel, by_count_desc in Hle. cbn in Hle. by apply Nat.leb_le in Hle.
  - intros c n Hc. destruct (counter_get _ _) as [ai|]; split.
    + intros [[_ Hin]|[? _]]%elem_of_set_others_count_inv; [|done].
      apply elem_of_app in Hin as [Hin|Hin%list_elem_of_singleton]; [done|].
      congruence.
    + intros Hin. apply elem_of_set_others_count; [done|].
      apply elem_of_app. by left.
    + intros [Hin|Hin%list_elem_of_singleton]%elem_of_app; [done|]. congruence.
    + intros Hin. apply elem_of_app. by left.
Qed.

Lemma top_30_ranking_witness :
  rows_demo <> []
  /\ exists viz ct,
       create_visualizations rows_demo = inr viz
       /\ category_counting (pd_DataFrame rows_demo) = inr ct
       /\ cv_top_30_categories ct
          = [("Z", 2); ("Q", 2); ("Artificial Intelligence", 1)]
       /\ NoDup (cv_top_30_categories ct).*1.
Proof.
  split; [discriminate|].
  destruct (top_30_ranking rows_demo) as (viz & ct & Hv & Hct & _ & Hnd & _);
    [discriminate|].
  exists viz, ct. split; [exact Hv|]. split; [exact Hct|]. split; [|exact Hnd].
  injection Hct as <-. by vm_compute.
Defined.

(** X10.  When "Artificial Intelligence" is among the top 30, every row of
    the category table named "Others" shows its count, also the row of a
    real category of that name; and when a category named "Others" is among
    the top 30, a click on its bar shows the records outside the top 30, so
    none of the records shown has that category. *)
Theorem others_category_shadowed rows st :
  rows <> [] ->
  exists viz shown st',
    create_visualizations rows = inr viz
    /\ display_category_click_data viz (Some "Others") st = (Some shown, st')
    /\ (forall ai, ("Artificial Intelligence", ai) ∈ top_categories viz ->
                   forall n, ("Others", n) ∈ top_categories viz -> n = ai)
    /\ ("Others" ∈ top_30_category_names viz ->
        forall e, e ∈ shown -> "Others" ∉ categories e).
Proof.
  intros Hne. destruct (create_visualizations_nonempty rows Hne) as (ct & Hct & Hviz).
  eexists _, _, _. split; [exact Hviz|].
  rewrite category_counting_nonempty in Hct by done. cbv zeta in Hct.
  injection Hct as <-.
  unfold display_category_click_data, filter_category.
  cbn [top_categories top_30_category_names cv_top_categories
       cv_top_30_category_names df String.eqb Ascii.eqb Bool.eqb
       to_dict_records pd_DataFrame records].
  set (top_30 := most_common 30 (Counter (concat (categories <$> rows)))).
  split; [reflexivity|]. split.
  - intros ai Hai n Hn.
    destruct (counter_get "Artificial Intelligence" top_30) as [ai'|] eqn:Hget.
    + apply elem_of_set_others_count_inv in Hai as [[_ Hai]|[? _]]; [|done].
      apply elem_of_app in Hai as [Hai|Hai%list_elem_of_singleton]; [|done].
      apply counter_get_Some in Hai; [|apply most_common_NoDup].
      assert (ai' = ai) as -> by congruence.
      by apply elem_of_set_others_count_inv in Hn as [[? _]|(_ & -> & _)].
    + apply elem_of_app in Hai as [Hai|Hai%list_elem_of_singleton]; [|done].
      apply counter_get_Some in Hai; [|apply most_common_NoDup]. congruence.
  - intros Hin e [_ He]%elem_of_stable_sort%elem_of_List_filter Hc.
    pose proof (proj1 (no_top_category_spec _ _) He) as Hnone.
    by eapply Hnone.
Qed.

Lemma others_category_shadowed_witness :
  rows_others <> []
  /\ exists viz shown st',
       create_visualizations rows_others = inr viz
       /\ display_category_click_data viz (Some "Others") initial_state
          = (Some shown, st')
       /\ top_categories viz
          = [("Others", 1); ("Artificial Intelligence", 1); ("Others", 1)]
       /\ "Others" ∈ top_30_category_names viz
       /\ company_name <$> shown = ["c"]
       /\ (forall e, e ∈ shown -> "Others" ∉ categories e).
Proof.
  split; [discriminate|].
  destruct (others_category_shadowed rows_others initial_state)
    as (viz & shown & st' & Hv & Hd & _ & Hs); [discriminate|].
  assert (Hin : "Others" ∈ top_30_category_names viz).
  { injection Hv as <-. apply (bool_decide_unpack _). by vm_compute. }
  exists viz, shown, st'. split; [exact Hv|]. split; [exact Hd|].
  split; [injection Hv as <-; by vm_compute|]. split; [exact Hin|].
  split; [|exact (Hs Hin)].
  injection Hv as <-. injection Hd as <- _. by vm_compute.
Defined.

(** X11.  When "Artificial Intelligence" is not among the top 30, the last
    row of the category table is ("Others", n) with n the number of records
    outside the top 30, which is the number of rows a click on that bar
    shows. *)
Theorem others_count_without_ai rows st :
  rows <> [] ->
  exists viz shown st',
    create_visualizations rows = inr viz
    /\ display_category_click_data viz (Some "Others") st = (Some shown, st')
    /\ ("Artificial Intelligence" ∉ top_30_category_names viz ->
        last (top_categories viz) = Some ("Others", length shown)
        /\ length shown
           = length (List.filter (no_top_category (top_30_category_names viz)) rows)).
Proof.
  intros Hne. destruct (create_visualizations_nonempty rows Hne) as (ct & Hct & Hviz).
  eexists _, _, _. split; [exact Hviz|].
  rewrite category_counting_nonempty in Hct by done. cbv zeta in Hct.
  injection Hct as <-.
  unfold display_category_click_data, filter_category.
  cbn [top_categories top_30_category_names cv_top_categories
       cv_top_30_category_names df String.eqb Ascii.eqb Bool.eqb
       to_dict_records pd_DataFrame records].
  set (top_30 := most_common 30 (Counter (concat (categories <$> rows)))).
  split; [reflexivity|]. intros Hno.
  rewrite length_stable_sort. split; [|done].
  destruct (counter_get "Artificial Intelligence" top_30) as [ai|] eqn:Hget.
  - exfalso. apply Hno. apply elem_of_list_to_set.
    apply dec_stable. intros Hn. apply counter_get_None in Hn. congruence.
  - apply last_snoc.
Qed.

Lemma others_count_without_ai_witness :
  rows_no_ai <> []
  /\ exists viz shown st',
       create_visualizations rows_no_ai
       = inr viz
       /\ display_category_click_data viz (Some "Others") initial_state
          = (Some shown, st')
       /\ ("Artificial Intelligence" ∉ top_30_category_names viz)
       /\ last (top_categories viz) = Some ("Others", length shown)
       /\ length shown = 1.
Proof.
  split; [discriminate|].
  destruct (others_count_without_ai
              rows_no_ai initial_state)
    as (viz & shown & st' & Hv & Hd & Hl); [discriminate|].
  assert (Hno : "Artificial Intelligence" ∉ top_30_category_names viz).
  { injection Hv as <-. apply (bool_decide_unpack _). by vm_compute. }
  exists viz, shown, st'. split; [exact Hv|]. split; [exact Hd|].
  split; [exact Hno|]. destruct (Hl Hno) as [Hlast _]. split; [exact Hlast|].
  injection Hv as <-. injection Hd as <- _. by vm_compute.
Defined.

Lemma by_value_asc_total (a b : nat * nat) :
  by_value_asc a b = false -> by_value_asc b a = true.
Proof. unfold by_value_asc. rewrite Nat.leb_gt, Nat.leb_le. lia. Qed.

Lemma by_value_asc_trans (a b d : nat * nat) :
  by_value_asc a b = true -> by_value_asc b d = true -> by_value_asc a d = true.
Proof. unfold by_value_asc. rewrite !Nat.leb_le. lia. Qed.

Lemma StronglySorted_strict (l : list (nat * nat)) :
  NoDup l.*1 ->
  StronglySorted (fun a b => a.1 <= b.1) l ->
  StronglySorted (fun a b => a.1 < b.1) l.
Proof.
  intros Hnd Hs. induction Hs as [|x l Hl IH Hx]; [constructor|].
  cbn in Hnd. apply NoDup_cons in Hnd as [Hx' Hnd].
  constructor; [by apply IH|].
  apply Forall_forall. intros y Hy.
  eapply Forall_forall in Hx; [|exact Hy].
  destruct (decide (x.1 = y.1)) as [Heq|Hne]; [|lia].
  exfalso. apply Hx'. rewrite Heq. by apply list_elem_of_fmap_2.
Qed.

Lemma occurrences_fmap_length {A} `{EqDecision A} (f : exhibitor -> A) v rows :
  occurrences v (f <$> rows)
  = length (List.filter (fun e => bool_decide (f e = v)) rows).
Proof.
  unfold occurrences. induction rows as [|e rows IH]; [done|]. cbn.
  case_bool_decide; cbn; by rewrite <- IH.
Qed.

(** X12.  The social-media distribution has one row (v, n) for every number
    v of social-media entries that some record has, n being the number of
    such records; the rows stand by strictly ascending v and their counts
    add up to the number of records. *)
Theorem social_media_distribution rows :
  rows <> [] ->
  exists viz,
    create_visualizations rows = inr viz
    /\ StronglySorted (fun a b => a.1 < b.1) (social_media_dist viz)
    /\ (forall v n,
          (v, n) ∈ social_media_dist viz
          <-> 0 < n
              /\ n = length (List.filter
                               (fun e => bool_decide (social_media_count e = v)) rows))
    /\ sum_list (social_media_dist viz).*2 = length rows.
Proof.
  intros Hne. destruct (create_visualizations_nonempty rows Hne) as (ct & Hct & Hviz).
  eexists. split; [exact Hviz|]. cbn [social_media_dist].
  set (smc := social_media_count <$> rows).
  split_and!.
  - apply StronglySorted_strict.
    + rewrite stable_sort_perm. apply value_counts_NoDup.
    + eapply StronglySorted_weaken;
        [|apply (stable_sort_strongly by_value_asc);
          [apply by_value_asc_total | apply by_value_asc_trans]].
      intros a b. unfold le_rel, by_value_asc. by rewrite Nat.leb_le.
  - intros v n. rewrite elem_of_stable_sort, elem_of_value_counts.
    unfold smc. rewrite <- occurrences_fmap_length, occurrences_pos. split.
    + by intros [? ->].
    + by intros [? ->].
  - rewrite stable_sort_perm. unfold smc.
    by rewrite value_counts_total, length_fmap.
Qed.

Lemma social_media_distribution_witness :
  rows_demo <> []
  /\ exists viz,
       create_visualizations rows_demo = inr viz
       /\ social_media_dist viz = [(0, 4)]
       /\ sum_list (social_media_dist viz).*2 = length rows_demo.
Proof.
  split; [discriminate|].
  destruct (social_media_distribution rows_demo) as (viz & Hv & _ & _ & Hs);
    [discriminate|].
  exists viz. split; [exact Hv|]. split; [|exact Hs].
  injection Hv as <-. by vm_compute.
Defined.

(** ** Drill-down and the bars of the charts *)

(** X13.  A click on a pavilion bar shows exactly the records whose
    pavilion is the name clicked, each once, sorted by company name; their
    number is the count of that pavilion in the pavilion table; and the
    click leaves the selection of the category chart as it was. *)
Theorem drill_down_pavilion rows selected_pavilion st :
  rows <> [] ->
  exists viz shown st',
    create_visualizations rows = inr viz
    /\ display_pavilion_click_data viz (Some selected_pavilion) st
       = (Some shown, st')
    /\ shown ≡ₚ List.filter
                  (fun e => String.eqb (pavilion e) selected_pavilion) rows
    /\ StronglySorted
         (fun a b => String.leb (company_name a) (company_name b) = true) shown
    /\ (forall n, (selected_pavilion, n) ∈ pavilion_counts viz -> length shown = n)
    /\ selected_category_exhibitors st' = selected_category_exhibitors st.
Proof.
  intros Hne. destruct (create_visualizations_nonempty rows Hne) as (ct & Hct & Hviz).
  eexists _, _, _. split; [exact Hviz|].
  unfold display_pavilion_click_data.
  cbn [df to_dict_records pd_DataFrame records pavilion_counts
       selected_category_exhibitors].
  split; [reflexivity|]. split_and!.
  - apply stable_sort_perm.
  - apply (stable_sort_strongly by_company_name);
      [apply by_company_name_total | apply by_company_name_trans].
  - intros n Hin. rewrite length_stable_sort.
    eapply elem_of_sublist in Hin; [|apply sublist_take].
    unfold sort_values_count_desc in Hin.
    apply elem_of_stable_sort, elem_of_List_filter in Hin as [Hin _].
    apply elem_of_value_counts in Hin as [_ ->].
    symmetry. apply occurrences_pavilion.
  - reflexivity.
Qed.

Lemma drill_down_pavilion_witness :
  rows_demo <> []
  /\ exists viz shown st',
       create_visualizations rows_demo = inr viz
       /\ display_pavilion_click_data viz (Some "P") initial_state
          = (Some shown, st')
       /\ ("P", 2) ∈ pavilion_counts viz
       /\ company_name <$> shown = ["b"; "c"]
       /\ length shown = 2.
Proof.
  split; [discriminate|].
  destruct (drill_down_pavilion rows_demo "P" initial_state)
    as (viz & shown & st' & Hv & Hd & _ & _ & Hn & _); [discriminate|].
  assert (Hin : ("P", 2) ∈ pavilion_counts viz).
  { injection Hv as <-. apply (bool_decide_unpack _). by vm_compute. }
  exists viz, shown, st'. split; [exact Hv|]. split; [exact Hd|].
  split; [exact Hin|]. split; [|exact (Hn 2 Hin)].
  injection Hv as <-. injection Hd as <- _. by vm_compute.
Defined.

Lemma occurrences_concat_categories c rows :
  length (List.filter (fun e => bool_decide (c ∈ categories e)) rows)
  <= occurrences c (concat (categories <$> rows))
  /\ (Forall (fun e => occurrences c (categories e) <= 1) rows ->
      length (List.filter (fun e => bool_decide (c ∈ categories e)) rows)
      = occurrences c (concat (categories <$> rows))).
Proof.
  induction rows as [|e rows [IHle IHeq]]; [done|].
  cbn [fmap list_fmap concat List.filter]. rewrite occurrences_app.
  pose proof (occurrences_pos c (categories e)) as Hpos.
  case_bool_decide as Hin; cbn [length].
  - split; [apply Hpos in Hin; lia|].
    intros [He Hrows]%Forall_cons. apply Hpos in Hin. rewrite IHeq by done. lia.
  - rewrite (occurrences_notin c (categories e)) by done.
    split; [done|]. intros [_ Hrows]%Forall_cons. by apply IHeq.
Qed.

(** X14.  The count that the category table shows for a category other than
    "Others" counts every mention of the category, so a click on its bar
    shows at most that many records, and exactly that many when no record
    lists the category twice. *)
Theorem category_bar_and_rows rows selected_category n st :
  rows <> [] ->
  selected_category <> "Others" ->
  exists viz shown st',
    create_visualizations rows = inr viz
    /\ display_category_click_data viz (Some selected_category) st
       = (Some shown, st')
    /\ ((selected_category, n) ∈ top_categories viz ->
        length shown <= n
        /\ (Forall (fun e => occurrences selected_category (categories e) <= 1) rows ->
            length shown = n)).
Proof.
  intros Hne Hkey. destruct (create_visualizations_nonempty rows Hne) as (ct & Hct & Hviz).
  eexists _, _, _. split; [exact Hviz|].
  rewrite category_counting_nonempty in Hct by done. cbv zeta in Hct.
  injection Hct as <-.
  unfold display_category_click_data, filter_category.
  rewrite (proj2 (String.eqb_neq selected_category "Others")) by done.
  cbn [top_categories cv_top_categories df to_dict_records pd_DataFrame records].
  split; [reflexivity|]. intros Hin. rewrite length_stable_sort.
  assert (Htop : (selected_category, n)
                 ∈ most_common 30 (Counter (concat (categories <$> rows)))).
  { destruct (counter_get _ _) as [ai|].
    - apply elem_of_set_others_count_inv in Hin as [[_ Hin]|[? _]]; [|done].
      apply elem_of_app in Hin as [Hin|Hin%list_elem_of_singleton]; [done|].
      congruence.
    - apply elem_of_app in Hin as [Hin|Hin%list_elem_of_singleton]; [done|].
      congruence. }
  apply elem_of_most_common in Htop as [_ ->].
  apply occurrences_concat_categories.
Qed.

Lemma category_bar_and_rows_witness :
  rows_demo <> [] /\ "Q" <> "Others"
  /\ exists viz shown st',
       create_visualizations rows_demo = inr viz
       /\ display_category_click_data viz (Some "Q") initial_state
          = (Some shown, st')
       /\ ("Q", 2) ∈ top_categories viz
       /\ length shown = 2.
Proof.
  split; [discriminate|]. split; [discriminate|].
  destruct (category_bar_and_rows rows_demo "Q" 2 initial_state)
    as (viz & shown & st' & Hv & Hd & Hn); [discriminate..|].
  assert (Hin : ("Q", 2) ∈ top_categories viz).
  { injection Hv as <-. apply (bool_decide_unpack _). by vm_compute. }
  exists viz, shown, st'. split; [exact Hv|]. split; [exact Hd|].
  split; [exact Hin|]. destruct (Hn Hin) as [_ Heq]. apply Heq.
  repeat constructor.
Defined.

(** ** The selection kept for the export *)

Lemma string_leb_refl s : String.leb s s = true.
Proof. by destruct (String.leb_total s s). Qed.

Lemma insert_sorted_filter_name name x l :
  List.filter (fun e => String.eqb (company_name e) name)
              (insert_sorted by_company_name x l)
  = List.filter (fun e => String.eqb (company_name e) name) (x :: l).
Proof.
  induction l as [|y l IH]; [done|]. cbn [insert_sorted].
  destruct (by_company_name x y) eqn:Hxy; [done|].
  cbn [List.filter] in *. rewrite IH.
  destruct (String.eqb_spec (company_name x) name) as [Hx|Hx]; [|done].
  destruct (String.eqb_spec (company_name y) name) as [Hy|Hy]; [|done].
  exfalso. unfold by_company_name in Hxy.
  rewrite Hx, Hy, string_leb_refl in Hxy. done.
Qed.

(** Sorting by company name keeps the records of one name in their order. *)
Lemma stable_sort_filter_name name l :
  List.filter (fun e => String.eqb (company_name e) name)
              (stable_sort by_company_name l)
  = List.filter (fun e => String.eqb (company_name e) name) l.
Proof.
  induction l as [|x l IH]; [done|]. cbn [stable_sort].
  rewrite insert_sorted_filter_name. cbn [List.filter]. by rewrite IH.
Qed.

(** X15.  Records with one company name are shown in the order they have in
    the data, and the selection kept for the export binds the name to the
    last of them in that order, for the category and for the pavilion
    chart. *)
Theorem selection_keeps_data_order viz key st :
  let by_name name := fun e => String.eqb (company_name e) name in
  exists shown_c st_c shown_p st_p,
    display_category_click_data viz (Some key) st = (Some shown_c, st_c)
    /\ display_pavilion_click_data viz (Some key) st = (Some shown_p, st_p)
    /\ (forall name,
          List.filter (by_name name) shown_c
          = List.filter (by_name name) (filter_category viz key)
          /\ selected_category_exhibitors st_c !! name
             = last (List.filter (by_name name) (filter_category viz key)))
    /\ (forall name,
          List.filter (by_name name) shown_p
          = List.filter (by_name name)
              (List.filter (fun e => String.eqb (pavilion e) key)
                           (records (df viz)))
          /\ selected_pavilion_exhibitors st_p !! name
             = last (List.filter (by_name name)
                       (List.filter (fun e => String.eqb (pavilion e) key)
                                    (records (df viz))))).
Proof.
  intros by_name. eexists _, _, _, _.
  split; [reflexivity|]. split; [reflexivity|].
  cbn [selected_category_exhibitors selected_pavilion_exhibitors]. split.
  - intros name. rewrite dict_by_company_name_lookup.
    unfold by_name. by rewrite stable_sort_filter_name.
  - intros name. rewrite dict_by_company_name_lookup.
    unfold by_name, to_dict_records. by rewrite stable_sort_filter_name.
Qed.

Lemma select_rows_Some sel names :
  select_rows sel names = omap (fun name => sel !! name) names.
Proof. reflexivity. Qed.

Lemma select_rows_nil_iff sel names :
  select_rows sel names = [] <-> forall name, name ∈ names -> sel !! name = None.
Proof.
  induction names as [|name names IH]; [by split; [intros _ ? ?%elem_of_nil|]|].
  rewrite select_rows_cons. destruct (sel !! name) as [e|] eqn:He.
  - split; [done|]. intros Hall. rewrite Hall in He; [done|apply list_elem_of_here].
  - rewrite IH. split.
    + intros Hall name' [->|?]%elem_of_cons; [done | by apply Hall].
    + intros Hall name' ?. apply Hall. by apply list_elem_of_further.
Qed.

Lemma length_select_rows sel names : length (select_rows sel names) <= length names.
Proof.
  induction names as [|name names IH]; [done|]. rewrite select_rows_cons.
  destruct (sel !! name); cbn; lia.
Qed.

Lemma download_selected_None sel n_clicks values :
  download_selected sel n_clicks values = None
  <-> n_clicks = None \/ n_clicks = Some 0
      \/ forall name, name ∈ checked_names values -> sel !! name = None.
Proof.
  rewrite <- select_rows_nil_iff. unfold download_selected.
  destruct n_clicks as [[|k]|]; [tauto| |tauto].
  destruct (checked_names values) as [|name names] eqn:Hn.
  { split; [by right; right | done]. }
  destruct (select_rows sel (name :: names)); [by split; [right; right|]|].
  split; [done|]. by intros [|[|]].
Qed.

Lemma download_selected_rows_known sel n_clicks values ex :
  download_selected sel n_clicks values = Some ex ->
  sheet_rows ex
  = export_fields <$> omap (fun name => sel !! name) (checked_names values)
  /\ 0 < length (sheet_rows ex) <= length (checked_names values).
Proof.
  intros Hex.
  assert (Hpos : select_rows sel (checked_names values) <> []).
  { intros Hnil.
    pose proof (proj1 (select_rows_nil_iff _ _) Hnil) as Hall.
    assert (download_selected sel n_clicks values = None) as Hnone
      by (apply download_selected_None; by right; right).
    congruence. }
  apply download_selected_Some in Hex as [_ ->]. split; [done|].
  rewrite length_fmap. split; [|apply length_select_rows].
  destruct (select_rows sel (checked_names values)); [done | cbn; lia].
Qed.

(** X16.  A download returns nothing exactly when the button was not
    pressed or none of the checked names is a key of the selection kept by
    the last click; otherwise its rows are those of the checked names that
    are keys, in the order checked, and the other names are passed over. *)
Theorem export_passes_over_unknown_names st n_clicks values :
  let names := checked_names values in
  let passes_over (download : option export) (selection : gmap string exhibitor) :=
    (download = None
     <-> n_clicks = None \/ n_clicks = Some 0
         \/ forall name, name ∈ names -> selection !! name = None)
    /\ forall ex,
         download = Some ex ->
         sheet_rows ex
         = export_fields <$> omap (fun name => selection !! name) names
         /\ 0 < length (sheet_rows ex) <= length names in
  passes_over (download_selected_category_data st n_clicks values)
              (selected_category_exhibitors st)
  /\ passes_over (download_selected_pavilion_data st n_clicks values)
                 (selected_pavilion_exhibitors st).
Proof.
  intros names passes_over. split; (split;
    [apply download_selected_None | apply download_selected_rows_known]).
Qed.

Lemma export_passes_over_unknown_names_witness :
  exists viz st',
    create_visualizations rows_demo = inr viz
    /\ (display_category_click_data viz (Some "Z") initial_state).2 = st'
    /\ download_selected_category_data st' (Some 1) [["c"]; ["b"]; ["x"]]
       = Some {| sheet_columns := export_headers;
                 sheet_rows := [["b"; "B1"; "P"; ""; "x"; ""]] |}
    /\ download_selected_category_data st' (Some 1) [["c"]; ["x"]] = None.
Proof.
  destruct (create_visualizations_nonempty rows_demo) as (ct & _ & Hv);
    [discriminate|].
  eexists _, _. split; [exact Hv|]. split; [reflexivity|].
  split; [by vm_compute|].
  match goal with
  | |- download_selected_category_data ?st ?n ?values = None =>
      destruct (export_passes_over_unknown_names st n values) as [[Hnone _] _]
  end.
  apply Hnone. right; right. intros name Hin.
  apply elem_of_cons in Hin as [->|Hin]; [by vm_compute|].
  apply list_elem_of_singleton in Hin as ->. by vm_compute.
Defined.

(** X17.  Clicks on the category chart never fill the selection of the
    pavilion chart, and the other way round: after any number of clicks on
    one chart only, the download button of the other chart returns
    nothing. *)
Theorem export_needs_click_on_same_chart viz clicks n_clicks values :
  download_selected_pavilion_data
    (foldl (fun st click => (display_category_click_data viz click st).2)
           initial_state clicks)
    n_clicks values = None
  /\ download_selected_category_data
       (foldl (fun st click => (display_pavilion_click_data viz click st).2)
              initial_state clicks)
       n_clicks values = None.
Proof.
  split.
  - assert (H : selected_pavilion_exhibitors
                  (foldl (fun st click => (display_category_click_data viz click st).2)
                         initial_state clicks) = ∅).
    { induction clicks as [|click clicks IH] using rev_ind; [done|].
      rewrite foldl_snoc. by destruct click. }
    unfold download_selected_pavilion_data. rewrite H.
    apply download_selected_no_selection.
  - assert (H : selected_category_exhibitors
                  (foldl (fun st click => (display_pavilion_click_data viz click st).2)
                         initial_state clicks) = ∅).
    { induction clicks as [|click clicks IH] using rev_ind; [done|].
      rewrite foldl_snoc. by destruct click. }
    unfold download_selected_category_data. rewrite H.
    apply download_selected_no_selection.
Qed.

(** ** From the table to the export *)

Lemma render_rows_checkboxes current_language i rows trs :
  render_rows current_language i rows = inr trs ->
  row_checkbox <$> trs = company_name <$> rows.
Proof.
  revert i trs. induction rows as [|e rows IH]; intros i trs Hr.
  - by injection Hr as <-.
  - cbn [render_rows] in Hr. bind_inv Hr. bind_inv Hr. injection Hr as <-.
    unfold render_row in Hx. bind_inv Hx. injection Hx as <-.
    cbn. f_equal. by eapply IH.
Qed.

Lemma checked_names_sublist (f : nat -> table_row -> list string) trs :
  (forall i row, f i row = [row_checkbox row] \/ f i row = []) ->
  checked_names (imap f trs) `sublist_of` row_checkbox <$> trs.
Proof.
  revert f. induction trs as [|row trs IH]; intros f Hf; [constructor|].
  rewrite imap_cons. unfold checked_names. cbn [omap list_omap fmap list_fmap].
  destruct (Hf 0 row) as [-> | ->]; cbn [head].
  - apply sublist_skip. apply IH. intros i r. apply Hf.
  - apply sublist_cons. apply IH. intros i r. apply Hf.
Qed.

Lemma checked_names_all_ticked trs ticked :
  (forall i, i < length trs -> i ∈ ticked) ->
  checked_names (checkbox_values trs ticked) = row_checkbox <$> trs.
Proof.
  intros Hall. unfold checkbox_values.
  rewrite (imap_ext _ (fun _ row => [row_checkbox row])).
  - unfold checked_names. clear Hall.
    generalize 0. induction trs as [|row trs IH]; intros k; [done|].
    rewrite imap_cons. cbn. f_equal. apply (IH (S k)).
  - intros i row Hi. rewrite bool_decide_true; [done|].
    apply Hall. by eapply lookup_lt_Some.
Qed.

Lemma filter_name_NoDup rows e :
  NoDup (company_name <$> rows) -> e ∈ rows ->
  List.filter (fun e' => String.eqb (company_name e') (company_name e)) rows = [e].
Proof.
  induction rows as [|x rows IH]; intros Hnd Hin; [by apply elem_of_nil in Hin|].
  cbn in Hnd. apply NoDup_cons in Hnd as [Hx Hnd]. cbn [List.filter].
  apply elem_of_cons in Hin as [->|Hin].
  - rewrite String.eqb_refl. f_equal.
    destruct (List.filter _ rows) as [|y l] eqn:Hf; [done|].
    assert (Hy : y ∈ List.filter
                       (fun e' => String.eqb (company_name e') (company_name x)) rows)
      by (rewrite Hf; apply list_elem_of_here).
    apply elem_of_List_filter in Hy as [Hy Heq]. apply String.eqb_eq in Heq.
    exfalso. apply Hx. rewrite <- Heq. by apply list_elem_of_fmap_2.
  - destruct (String.eqb_spec (company_name x) (company_name e)) as [Heq|Hne].
    + exfalso. apply Hx. rewrite Heq. by apply list_elem_of_fmap_2.
    + by apply IH.
Qed.

Lemma select_rows_own_names sel rows :
  (forall e, e ∈ rows -> sel !! company_name e = Some e) ->
  select_rows sel (company_name <$> rows) = rows.
Proof.
  induction rows as [|e rows IH]; intros Hall; [done|].
  cbn [fmap list_fmap]. rewrite select_rows_cons, Hall by apply list_elem_of_here.
  f_equal. apply IH. intros e' He'. apply Hall. by apply list_elem_of_further.
Qed.

Lemma export_rows_heads (P : exhibitor -> Prop) names rows :
  Forall2 (fun name row => exists e, P e /\ company_name e = name
                                     /\ row = export_fields e) names rows ->
  head <$> rows = Some <$> names.
Proof.
  induction 1 as [|name row names rows (e & _ & <- & ->) _ IH]; [done|].
  cbn. by rewrite IH.
Qed.

(** X18.  When the table of a click is rendered and every box of it is
    ticked, the download has one row per row of the table, in the order of
    the table and with the same company names; when no two records shown
    share a company name the rows are exactly the six fields of the records
    shown.  Whatever boxes are ticked, the names handed to the download
    follow the order of the table; and for an empty table nothing is
    returned. *)
Theorem export_of_rendered_table viz key st current_language trs ticked k :
  let shown := stable_sort by_company_name (filter_category viz key) in
  let st' := (display_category_click_data viz (Some key) st).2 in
  render_rows current_language 0 shown = inr trs ->
  checked_names (checkbox_values trs ticked) `sublist_of` company_name <$> shown
  /\ ((forall i, i < length trs -> i ∈ ticked) ->
      checked_names (checkbox_values trs ticked) = company_name <$> shown
      /\ (shown = [] ->
          download_selected_category_data st' (Some (S k))
            (checkbox_values trs ticked) = None)
      /\ (shown <> [] ->
          exists ex,
            download_selected_category_data st' (Some (S k))
              (checkbox_values trs ticked) = Some ex
            /\ length (sheet_rows ex) = length shown
            /\ head <$> sheet_rows ex = Some ∘ company_name <$> shown
            /\ (NoDup (company_name <$> shown) ->
                sheet_rows ex = export_fields <$> shown))).
Proof.
  intros shown st' Hr.
  pose proof (render_rows_checkboxes _ _ _ _ Hr) as Hboxes.
  split.
  { rewrite <- Hboxes. apply checked_names_sublist.
    intros i row. case_bool_decide; [by left | by right]. }
  intros Hall.
  assert (Hnames : checked_names (checkbox_values trs ticked)
                   = company_name <$> shown).
  { by rewrite checked_names_all_ticked, Hboxes. }
  split; [exact Hnames|]. split.
  - intros Hnil. apply download_selected_none_checked. by rewrite Hnames, Hnil.
  - intros Hne.
    destruct (download_selected_rows shown k (checkbox_values trs ticked))
      as (ex & Hex & _ & Hlen & Hrows).
    { rewrite Hnames. by destruct shown. }
    { by rewrite Hnames. }
    exists ex. split; [exact Hex|]. rewrite Hnames in Hlen, Hrows.
    split; [by rewrite Hlen, length_fmap|]. split.
    + rewrite (export_rows_heads _ _ _ Hrows). by rewrite <- list_fmap_compose.
    + intros Hnd.
      apply download_selected_Some in Hex as [_ ->]. rewrite Hnames.
      f_equal. apply select_rows_own_names. intros e He.
      rewrite dict_by_company_name_lookup, filter_name_NoDup by done. done.
Qed.

Lemma export_of_rendered_table_witness :
  exists viz trs,
    create_visualizations rows_demo = inr viz
    /\ render_rows "en" 0 (stable_sort by_company_name (filter_category viz "Z"))
       = inr trs
    /\ row_checkbox <$> trs = ["a"; "b"]
    /\ download_selected_category_data
         (display_category_click_data viz (Some "Z") initial_state).2 (Some 1)
         (checkbox_values trs [1; 0])
       = Some {| sheet_columns := export_headers;
                 sheet_rows := [["a"; "B1"; "Q"; ""; "y"; ""];
                                ["b"; "B1"; "P"; ""; "x"; ""]] |}.
Proof.
  destruct (create_visualizations_nonempty rows_demo) as (ct & _ & Hv);
    [discriminate|].
  eexists _, _. split; [exact Hv|]. split; [reflexivity|].
  split; [reflexivity|].
  match goal with
  | |- download_selected_category_data
         (display_category_click_data ?viz _ _).2 _ (checkbox_values ?trs _) = _ =>
      destruct (export_of_rendered_table viz "Z" initial_state "en" trs [1; 0] 0
                  eq_refl) as [_ Hall]
  end.
  destruct Hall as (_ & _ & Hex).
  { intros i Hi. cbn in Hi.
    destruct i as [|[|i]]; [set_solver | set_solver | lia]. }
  destruct Hex as (ex & Hex & _ & _ & Hrows); [discriminate|].
  rewrite Hex. f_equal.
  unfold download_selected_category_data in Hex.
  apply download_selected_Some in Hex as [Hcols _].
  destruct ex as [cols rws]. cbn [sheet_columns sheet_rows] in *. subst cols.
  f_equal. rewrite Hrows; [reflexivity|].
  apply (bool_decide_unpack _). by vm_compute.
Defined.

(** ** The language of the table *)

Lemma render_rows_inv current_language i rows trs :
  render_rows current_language i rows = inr trs ->
  Forall2 (fun e row =>
             row_description row
             = truncate_description (description_field current_language e)
             /\ homepage_cell e = inr (row_homepage row))
          rows trs.
Proof.
  revert i trs. induction rows as [|e rows IH]; intros i trs Hr.
  - injection Hr as <-. constructor.
  - cbn [render_rows] in Hr. bind_inv Hr. bind_inv Hr. injection Hr as <-.
    unfold render_row in Hx. bind_inv Hx. injection Hx as <-.
    constructor; [by cbn | by eapply IH].
Qed.

(** X19.  The table of a category click has one row per record shown, and
    its heading names that number.  Without a stored language the table is
    Korean; the descriptions are the Korean ones exactly when the language
    is "ko" and the English ones for every other value; and for a value
    that is neither "ko" nor "en" neither button gets the green style. *)
Theorem click_children_language viz key language_data st view :
  let shown := stable_sort by_company_name (filter_category viz key) in
  let current_language := default "ko" language_data in
  category_click_children viz (Some key) language_data st = inr (Some view) ->
  length (view_rows view) = length shown
  /\ view_heading view
     = "Companies in category: " +:+ key +:+ " ("
       +:+ pretty (length (view_rows view)) +:+ " exhibitors)"
  /\ Forall2 (fun e row =>
                row_description row
                = truncate_description
                    (if bool_decide (current_language = "ko")
                     then description_ko e else description e))
             shown (view_rows view)
  /\ (style_get "backgroundColor" (view_ko_style view) = Some "#4CAF50"
      <-> current_language = "ko")
  /\ (style_get "backgroundColor" (view_en_style view) = Some "#4CAF50"
      <-> current_language = "en").
Proof.
  intros shown current_language Hc. unfold category_click_children in Hc.
  cbn [display_category_click_data fst] in Hc. fold shown current_language in Hc.
  bind_inv Hc. injection Hc as <-. unfold render_click in Hx.
  bind_inv Hx. injection Hx as <-.
  cbn [view_rows view_heading view_ko_style view_en_style].
  pose proof (render_rows_inv _ _ _ _ Hx0) as Hrows.
  assert (Hlen : length x0 = length shown)
    by (symmetry; by eapply Forall2_length).
  split_and!.
  - exact Hlen.
  - by rewrite Hlen.
  - eapply Forall2_impl; [exact Hrows|]. intros e row [-> _].
    unfold description_field. f_equal.
    destruct (String.eqb_spec current_language "ko") as [Heq|Hne].
    + by rewrite bool_decide_true.
    + by rewrite bool_decide_false.
  - unfold click_ko_style. cbn.
    destruct (String.eqb_spec current_language "ko"); split; done.
  - unfold click_en_style. cbn.
    destruct (String.eqb_spec current_language "en"); split; done.
Qed.

Lemma click_children_language_witness :
  exists viz view,
    create_visualizations rows_demo = inr viz
    /\ category_click_children viz (Some "Z") (Some "fr") initial_state
       = inr (Some view)
    /\ view_heading view = "Companies in category: Z (2 exhibitors)"
    /\ length (view_rows view) = 2
    /\ style_get "backgroundColor" (view_ko_style view) = Some "#ccc"
    /\ style_get "backgroundColor" (view_en_style view) = Some "#ccc".
Proof.
  destruct (create_visualizations_nonempty rows_demo) as (ct & _ & Hv);
    [discriminate|].
  match type of Hv with
  | _ = inr ?v =>
      destruct (click_children_language v "Z" (Some "fr") initial_state _ eq_refl)
        as (Hlen & _)
  end.
  eexists _, _. split; [exact Hv|]. split; [reflexivity|].
  split; [by vm_compute|]. split; [exact Hlen|]. split; reflexivity.
Defined.
